(** * Momentum: ownership and optimistic synchronisation

    A shallow embedding of the schema (tables, row-level-security
    policies, triggers, foreign keys) and of the client components
    (TodayView, GoalsView, MilestonesView, AddItemModal), followed by the
    properties of the synchronisation contract.

    Conventions.
    - A table is the list of its rows in heap order.
    - UUIDs, DATE values and the text of form inputs are strings, as the
      client sees them; TIMESTAMP and TIME values are integers (an
      instant, resp. an offset in the day). Text that a payload gives for
      a TIME column, or for a DATE column that a form input feeds, goes
      through the input conversion of the type, which may refuse it.
    - A JavaScript object literal passed to [insert] is a finite map from
      column names to JSON values, so that an omitted field and a field
      set to [null] stay distinct. *)

From stdpp Require Import gmap strings list sorting.
From Stdlib Require Import ZArith.

Local Open Scope string_scope.
Local Open Scope list_scope.
Local Open Scope Z_scope.

Abbreviation uuid := string (only parsing).
Abbreviation date := string (only parsing).
Abbreviation timestamp := Z (only parsing).
Abbreviation time := Z (only parsing).

(** ** JSON values carried by payloads and user metadata *)

Inductive jsval : Type :=
| JNull
| JBool (b : bool)
| JStr (s : string).

#[global] Instance jsval_eq_dec : EqDecision jsval.
Proof. solve_decision. Defined.

(** [x || null] on the result of [FormData.get]: a missing field and the
    empty string both become [null]. *)
Definition or_null (x : option string) : jsval :=
  match x with
  | Some s => if decide (s = "") then JNull else JStr s
  | None => JNull
  end.

(** [FormData.get(name) as string]: the cast does not change the value. *)
Definition as_string (x : option string) : jsval :=
  match x with
  | Some s => JStr s
  | None => JNull
  end.

(** ** Rows of the schema *)

Module AuthUser.
Record t : Type := mk {
  id : uuid;
  raw_user_meta_data : gmap string jsval
}.
End AuthUser.

Module Profile.
Record t : Type := mk {
  id : uuid;
  full_name : option string;
  created_at : timestamp;
  updated_at : timestamp
}.
End Profile.

Module Task.
Record t : Type := mk {
  id : uuid;
  user_id : uuid;
  title : string;
  completed : bool;
  task_date : date;
  alarm_time : option time;
  created_at : timestamp;
  updated_at : timestamp
}.
End Task.

Module TimeBlock.
Record t : Type := mk {
  id : uuid;
  user_id : uuid;
  title : string;
  block_date : date;
  start_time : time;
  end_time : time;
  description : option string;
  created_at : timestamp
}.
End TimeBlock.

Inductive goal_type : Type := yearly | monthly.

Module Goal.
Record t : Type := mk {
  id : uuid;
  user_id : uuid;
  title : string;
  description : option string;
  goal_type : goal_type;
  target_date : option date;
  completed : bool;
  created_at : timestamp;
  updated_at : timestamp
}.
End Goal.

Module Milestone.
Record t : Type := mk {
  id : uuid;
  user_id : uuid;
  goal_id : option uuid;
  title : string;
  description : option string;
  completed : bool;
  target_date : option date;
  created_at : timestamp;
  updated_at : timestamp
}.
End Milestone.

(** The projection [select('id, title')] of a goal row. *)
Module GoalRef.
Record t : Type := mk {
  id : uuid;
  title : string
}.
End GoalRef.

#[global] Instance goal_type_eq_dec : EqDecision goal_type.
Proof. solve_decision. Defined.
#[global] Instance Profile_eq_dec : EqDecision Profile.t.
Proof. solve_decision. Defined.
#[global] Instance Task_eq_dec : EqDecision Task.t.
Proof. solve_decision. Defined.
#[global] Instance TimeBlock_eq_dec : EqDecision TimeBlock.t.
Proof. solve_decision. Defined.
#[global] Instance Goal_eq_dec : EqDecision Goal.t.
Proof. solve_decision. Defined.
#[global] Instance Milestone_eq_dec : EqDecision Milestone.t.
Proof. solve_decision. Defined.
#[global] Instance GoalRef_eq_dec : EqDecision GoalRef.t.
Proof. solve_decision. Defined.

(** ** The record store *)

Record Store : Type := mkStore {
  users : list AuthUser.t;
  profiles : list Profile.t;
  tasks : list Task.t;
  time_blocks : list TimeBlock.t;
  goals : list Goal.t;
  milestones : list Milestone.t
}.

Definition empty_store : Store := mkStore [] [] [] [] [] [].

(** Interfaces shared by the four entity tables: every row has a primary
    key [id] and an owner [user_id]; three of them carry [completed]. *)

Class Keyed (A : Type) := key : A → uuid.
Class Owned (A : Type) := owner : A → uuid.
Class Completable (A : Type) `{Keyed A} := {
  is_completed : A → bool;
  with_completed : bool → A → A;   (* { ...r, completed: b } *)
  with_completed_key b r : key (with_completed b r) = key r;
  with_completed_same r : with_completed (is_completed r) r = r;
  with_completed_twice b c r :
    with_completed b (with_completed c r) = with_completed b r;
  is_completed_with b r : is_completed (with_completed b r) = b
}.

#[global] Instance Task_keyed : Keyed Task.t := Task.id.
#[global] Instance TimeBlock_keyed : Keyed TimeBlock.t := TimeBlock.id.
#[global] Instance Goal_keyed : Keyed Goal.t := Goal.id.
#[global] Instance Milestone_keyed : Keyed Milestone.t := Milestone.id.

#[global] Instance Task_owned : Owned Task.t := Task.user_id.
#[global] Instance TimeBlock_owned : Owned TimeBlock.t := TimeBlock.user_id.
#[global] Instance Goal_owned : Owned Goal.t := Goal.user_id.
#[global] Instance Milestone_owned : Owned Milestone.t := Milestone.user_id.

Definition Task_with_completed (b : bool) (r : Task.t) : Task.t :=
  Task.mk (Task.id r) (Task.user_id r) (Task.title r) b (Task.task_date r)
          (Task.alarm_time r) (Task.created_at r) (Task.updated_at r).

Definition Goal_with_completed (b : bool) (r : Goal.t) : Goal.t :=
  Goal.mk (Goal.id r) (Goal.user_id r) (Goal.title r) (Goal.description r)
          (Goal.goal_type r) (Goal.target_date r) b (Goal.created_at r)
          (Goal.updated_at r).

Definition Milestone_with_completed (b : bool) (r : Milestone.t) : Milestone.t :=
  Milestone.mk (Milestone.id r) (Milestone.user_id r) (Milestone.goal_id r)
               (Milestone.title r) (Milestone.description r) b
               (Milestone.target_date r) (Milestone.created_at r)
               (Milestone.updated_at r).

#[global, refine] Instance Task_completable : Completable Task.t :=
  {| is_completed := Task.completed; with_completed := Task_with_completed |}.
Proof. all: by intros; try destruct r. Defined.

#[global, refine] Instance Goal_completable : Completable Goal.t :=
  {| is_completed := Goal.completed; with_completed := Goal_with_completed |}.
Proof. all: by intros; try destruct r. Defined.

#[global, refine] Instance Milestone_completable : Completable Milestone.t :=
  {| is_completed := Milestone.completed;
     with_completed := Milestone_with_completed |}.
Proof. all: by intros; try destruct r. Defined.

(** ** Row-level security and the query surface *)

(** [USING (auth.uid() = user_id)]: the rows of a table that the session
    of [auth] can see (and update, and delete). *)
Definition visible {A} `{Owned A} (auth : uuid) (rows : list A) : list A :=
  filter (λ r, owner r = auth) rows.

(** [.order(col, { ascending })] on an integer-valued column. Rows with
    equal keys keep their heap order here; the store promises no order
    among them, and no statement below depends on it: where one is about
    the order of a list, it is about rows with different keys. *)
Definition precedes {A} (col : A → Z) (ascending : bool) : relation A :=
  λ a b, if ascending then col a ≤ col b else col b ≤ col a.

#[global] Instance precedes_dec {A} (col : A → Z) asc a b :
  Decision (precedes col asc a b).
Proof. unfold precedes. destruct asc; apply _. Defined.

Definition order {A} (col : A → Z) (ascending : bool) (rows : list A) : list A :=
  merge_sort (precedes col ascending) rows.

(** from('tasks').select('*').eq('user_id', uid).eq('task_date', d)
      .order('created_at', { ascending: true }) *)
Definition select_tasks (auth uid : uuid) (d : date) (db : Store) : list Task.t :=
  order Task.created_at true
    (filter (λ r, Task.task_date r = d)
       (filter (λ r, Task.user_id r = uid) (visible auth (tasks db)))).

(** from('time_blocks').select('*').eq('user_id', uid).eq('block_date', d)
      .order('start_time', { ascending: true }) *)
Definition select_time_blocks (auth uid : uuid) (d : date) (db : Store)
  : list TimeBlock.t :=
  order TimeBlock.start_time true
    (filter (λ r, TimeBlock.block_date r = d)
       (filter (λ r, TimeBlock.user_id r = uid) (visible auth (time_blocks db)))).

(** from('goals').select('*').eq('user_id', uid)
      .order('created_at', { ascending: false }) *)
Definition select_goals (auth uid : uuid) (db : Store) : list Goal.t :=
  order Goal.created_at false
    (filter (λ r, Goal.user_id r = uid) (visible auth (goals db))).

(** from('milestones').select('*').eq('user_id', uid)
      .order('created_at', { ascending: false }) *)
Definition select_milestones (auth uid : uuid) (db : Store) : list Milestone.t :=
  order Milestone.created_at false
    (filter (λ r, Milestone.user_id r = uid) (visible auth (milestones db))).

(** from('goals').select('id, title').eq('user_id', uid): no ordering is
    requested; rows come in heap order. *)
Definition goal_ref (g : Goal.t) : GoalRef.t :=
  GoalRef.mk (Goal.id g) (Goal.title g).

Definition select_goal_titles (auth uid : uuid) (db : Store) : list GoalRef.t :=
  goal_ref <$> filter (λ r, Goal.user_id r = uid) (visible auth (goals db)).

(** ** Writes: constraints, defaults, triggers, cascades *)

Inductive pg_error : Type :=
| undefined_column
| datatype_mismatch (column : string)
| not_null_violation (column : string)
| check_violation (column : string)
| unique_violation
| foreign_key_violation (column : string)
| rls_violation
| network_failure.

Inductive result (A : Type) : Type :=
| Ok (a : A)
| Err (e : pg_error).
Arguments Ok {A} a.
Arguments Err {A} e.

#[global] Instance result_bind : MBind result := λ A B k r,
  match r with
  | Ok a => k a
  | Err e => Err e
  end.

Definition check (P : Prop) `{Decision P} (e : pg_error) : result unit :=
  if decide P then Ok () else Err e.

(** What the statement is executed with: the caller's [auth.uid()], the
    value of [NOW()], the UUID that [gen_random_uuid()] draws, and the
    input conversions of the TIME and DATE types. *)
Record Env : Type := mkEnv {
  auth_uid : uuid;
  NOW : timestamp;
  gen_random_uuid : uuid;
  time_in : string → option time;
  date_in : string → option date
}.

(** Reading a column out of an insert payload. An omitted key and an
    explicit [null] both give SQL NULL for a column without default. *)
Definition nullable (p : gmap string jsval) (c : string) : result (option string) :=
  match p !! c with
  | None | Some JNull => Ok None
  | Some (JStr s) => Ok (Some s)
  | Some (JBool _) => Err (datatype_mismatch c)
  end.

Definition not_null (p : gmap string jsval) (c : string) : result string :=
  x ← nullable p c;
  match x with
  | Some s => Ok s
  | None => Err (not_null_violation c)
  end.

(** [completed BOOLEAN DEFAULT FALSE]. The client types declare
    [completed: boolean]; a row whose flag is SQL NULL is outside this
    model, so a payload that sets it to [null] explicitly is refused. *)
Definition completed_or_default (p : gmap string jsval) : result bool :=
  match p !! "completed" with
  | None => Ok false
  | Some (JBool b) => Ok b
  | Some _ => Err (datatype_mismatch "completed")
  end.

(** [goal_type TEXT NOT NULL CHECK (goal_type IN ('yearly', 'monthly'))] *)
Definition goal_type_in (s : string) : result goal_type :=
  if decide (s = "yearly") then Ok yearly
  else if decide (s = "monthly") then Ok monthly
  else Err (check_violation "goal_type").

Definition time_not_null (env : Env) (p : gmap string jsval) (c : string)
  : result time :=
  s ← not_null p c;
  match time_in env s with
  | Some t => Ok t
  | None => Err (datatype_mismatch c)
  end.

(** A nullable TIME or DATE column: NULL stays NULL, text has to pass the
    input conversion of the type. *)
Definition converted {A} (conv : string → option A) (c : string)
    (x : option string) : result (option A) :=
  match x with
  | None => Ok None
  | Some s =>
      match conv s with
      | Some a => Ok (Some a)
      | None => Err (datatype_mismatch c)
      end
  end.

Definition time_nullable (env : Env) (p : gmap string jsval) (c : string)
  : result (option time) :=
  x ← nullable p c; converted (time_in env) c x.

Definition date_nullable (env : Env) (p : gmap string jsval) (c : string)
  : result (option date) :=
  x ← nullable p c; converted (date_in env) c x.

(** Columns a payload may name. [id], [created_at] and [updated_at] are
    always assigned by the store in this model (their column defaults). *)
Definition task_columns : gset string :=
  {[ "user_id"; "title"; "completed"; "task_date"; "alarm_time" ]}.
Definition time_block_columns : gset string :=
  {[ "user_id"; "title"; "block_date"; "start_time"; "end_time"; "description" ]}.
Definition goal_columns : gset string :=
  {[ "user_id"; "title"; "description"; "goal_type"; "target_date"; "completed" ]}.
Definition milestone_columns : gset string :=
  {[ "user_id"; "goal_id"; "title"; "description"; "completed"; "target_date" ]}.

Definition set_tasks (f : list Task.t → list Task.t) (db : Store) : Store :=
  mkStore (users db) (profiles db) (f (tasks db)) (time_blocks db) (goals db)
          (milestones db).
Definition set_time_blocks (f : list TimeBlock.t → list TimeBlock.t) (db : Store)
  : Store :=
  mkStore (users db) (profiles db) (tasks db) (f (time_blocks db)) (goals db)
          (milestones db).
Definition set_goals (f : list Goal.t → list Goal.t) (db : Store) : Store :=
  mkStore (users db) (profiles db) (tasks db) (time_blocks db) (f (goals db))
          (milestones db).
Definition set_milestones (f : list Milestone.t → list Milestone.t) (db : Store)
  : Store :=
  mkStore (users db) (profiles db) (tasks db) (time_blocks db) (goals db)
          (f (milestones db)).

Definition user_exists (uid : uuid) (db : Store) : Prop :=
  uid ∈ AuthUser.id <$> users db.

#[global] Instance user_exists_dec uid db : Decision (user_exists uid db).
Proof. unfold user_exists. apply _. Defined.

(** Checks common to the four inserts: known columns, [user_id] NOT NULL
    and REFERENCES auth.users(id), the policy's
    [WITH CHECK (auth.uid() = user_id)], and a fresh primary key.

    [alarm_time TIME], [start_time TIME], [end_time TIME] and the two
    [target_date DATE] columns take text that the user typed and convert
    it. [task_date] and [block_date] are kept as the text of the payload:
    the client fills them with [format(new Date(), 'yyyy-MM-dd')] only. *)
Definition insert_checks (env : Env) (columns : gset string) (ids : list uuid)
    (p : gmap string jsval) (db : Store) : result uuid :=
  check (dom p ⊆ columns) undefined_column;;
  uid ← not_null p "user_id";
  check (user_exists uid db) (foreign_key_violation "user_id");;
  check (auth_uid env = uid) rls_violation;;
  check (gen_random_uuid env ∉ ids) unique_violation;;
  Ok uid.

Definition insert_task (env : Env) (p : gmap string jsval) (db : Store)
  : result Store :=
  uid ← insert_checks env task_columns (Task.id <$> tasks db) p db;
  title ← not_null p "title";
  done ← completed_or_default p;
  d ← not_null p "task_date";
  alarm ← time_nullable env p "alarm_time";
  Ok (set_tasks (λ rows, rows ++
        [Task.mk (gen_random_uuid env) uid title done d alarm (NOW env) (NOW env)])
      db).

Definition insert_time_block (env : Env) (p : gmap string jsval) (db : Store)
  : result Store :=
  uid ← insert_checks env time_block_columns (TimeBlock.id <$> time_blocks db) p db;
  title ← not_null p "title";
  d ← not_null p "block_date";
  t0 ← time_not_null env p "start_time";
  t1 ← time_not_null env p "end_time";
  descr ← nullable p "description";
  Ok (set_time_blocks (λ rows, rows ++
        [TimeBlock.mk (gen_random_uuid env) uid title d t0 t1 descr (NOW env)])
      db).

Definition insert_goal (env : Env) (p : gmap string jsval) (db : Store)
  : result Store :=
  uid ← insert_checks env goal_columns (Goal.id <$> goals db) p db;
  title ← not_null p "title";
  descr ← nullable p "description";
  ty ← not_null p "goal_type";
  ty ← goal_type_in ty;
  target ← date_nullable env p "target_date";
  done ← completed_or_default p;
  Ok (set_goals (λ rows, rows ++
        [Goal.mk (gen_random_uuid env) uid title descr ty target done
                 (NOW env) (NOW env)])
      db).

(** [goal_id UUID REFERENCES public.goals(id)]: NULL, or an existing goal. *)
Definition goal_reference_ok (goal : option uuid) (db : Store) : Prop :=
  match goal with
  | Some g => g ∈ Goal.id <$> goals db
  | None => True
  end.

#[global] Instance goal_reference_ok_dec goal db :
  Decision (goal_reference_ok goal db).
Proof. destruct goal; simpl; apply _. Defined.

Definition insert_milestone (env : Env) (p : gmap string jsval) (db : Store)
  : result Store :=
  uid ← insert_checks env milestone_columns (Milestone.id <$> milestones db) p db;
  goal ← nullable p "goal_id";
  check (goal_reference_ok goal db) (foreign_key_violation "goal_id");;
  title ← not_null p "title";
  descr ← nullable p "description";
  done ← completed_or_default p;
  target ← date_nullable env p "target_date";
  Ok (set_milestones (λ rows, rows ++
        [Milestone.mk (gen_random_uuid env) uid goal title descr done target
                      (NOW env) (NOW env)])
      db).

(** [handle_updated_at], run BEFORE UPDATE on tasks, goals, milestones. *)
Definition Task_touch (now : timestamp) (r : Task.t) : Task.t :=
  Task.mk (Task.id r) (Task.user_id r) (Task.title r) (Task.completed r)
          (Task.task_date r) (Task.alarm_time r) (Task.created_at r) now.
Definition Goal_touch (now : timestamp) (r : Goal.t) : Goal.t :=
  Goal.mk (Goal.id r) (Goal.user_id r) (Goal.title r) (Goal.description r)
          (Goal.goal_type r) (Goal.target_date r) (Goal.completed r)
          (Goal.created_at r) now.
Definition Milestone_touch (now : timestamp) (r : Milestone.t) : Milestone.t :=
  Milestone.mk (Milestone.id r) (Milestone.user_id r) (Milestone.goal_id r)
               (Milestone.title r) (Milestone.description r)
               (Milestone.completed r) (Milestone.target_date r)
               (Milestone.created_at r) now.

(** from(table).update({ completed: b }).eq('id', rid): every row with that
    id that the policy lets the caller see gets the new flag, then the
    trigger stamps it. [user_id] is not written, so WITH CHECK holds for
    each such row. No matching row is not an error. *)
Definition update_completed {A} `{Completable A, Owned A}
    (touch : timestamp → A → A) (env : Env) (rid : uuid) (b : bool)
    (rows : list A) : list A :=
  (λ r, if decide (owner r = auth_uid env ∧ key r = rid)
        then touch (NOW env) (with_completed b r) else r) <$> rows.

(** A milestone outlives the deletion of the goals [gone] when its
    reference is NULL or points elsewhere. *)
Definition outlives (gone : list uuid) (m : Milestone.t) : Prop :=
  match Milestone.goal_id m with
  | Some g => g ∉ gone
  | None => True
  end.

#[global] Instance outlives_dec gone m : Decision (outlives gone m).
Proof. unfold outlives. destruct (Milestone.goal_id m); simpl; apply _. Defined.

(** DELETE FROM goals WHERE id = gid, under the goals policy, with
    [goal_id UUID REFERENCES public.goals(id) ON DELETE CASCADE] on
    milestones. The referential action is not subject to the milestones
    policy. *)
Definition delete_goal (env : Env) (gid : uuid) (db : Store) : Store :=
  let doomed := filter (λ g, Goal.user_id g = auth_uid env ∧ Goal.id g = gid)
                       (goals db) in
  let gone := Goal.id <$> doomed in
  mkStore (users db) (profiles db) (tasks db) (time_blocks db)
    (filter (λ g, ¬ (Goal.user_id g = auth_uid env ∧ Goal.id g = gid)) (goals db))
    (filter (outlives gone) (milestones db)).

(** [NEW.raw_user_meta_data->>'full_name']: the field as text, SQL NULL
    when the key is absent or holds JSON null. *)
Definition json_field_text (o : gmap string jsval) (k : string) : option string :=
  match o !! k with
  | None | Some JNull => None
  | Some (JStr s) => Some s
  | Some (JBool b) => Some (if b then "true" else "false")
  end.

(** COALESCE(x, y) *)
Definition COALESCE (x : option string) (y : string) : string :=
  default y x.

(** [handle_new_user]: INSERT INTO public.profiles (id, full_name) VALUES
    (NEW.id, COALESCE(NEW.raw_user_meta_data->>'full_name', '')). The
    function is SECURITY DEFINER, so no policy applies; the primary key of
    profiles does. *)
Definition handle_new_user (now : timestamp) (new : AuthUser.t) (db : Store)
  : result Store :=
  check (AuthUser.id new ∉ Profile.id <$> profiles db) unique_violation;;
  Ok (mkStore (users db)
        (profiles db ++
           [Profile.mk (AuthUser.id new)
              (Some (COALESCE (json_field_text (AuthUser.raw_user_meta_data new)
                                               "full_name") ""))
              now now])
        (tasks db) (time_blocks db) (goals db) (milestones db)).

(** INSERT INTO auth.users, followed by the trigger [on_auth_user_created]
    (AFTER INSERT ... FOR EACH ROW); an error in the trigger aborts the
    insert. *)
Definition create_user (now : timestamp) (new : AuthUser.t) (db : Store)
  : result Store :=
  check (AuthUser.id new ∉ AuthUser.id <$> users db) unique_violation;;
  handle_new_user now new
    (mkStore (users db ++ [new]) (profiles db) (tasks db) (time_blocks db)
             (goals db) (milestones db)).

(** ** The requests the client issues, and how the store answers them *)

Inductive Request : Type → Type :=
| SelectTasks (user_id : uuid) (task_date : date) : Request (list Task.t)
| SelectTimeBlocks (user_id : uuid) (block_date : date) : Request (list TimeBlock.t)
| SelectGoals (user_id : uuid) : Request (list Goal.t)
| SelectMilestones (user_id : uuid) : Request (list Milestone.t)
| SelectGoalTitles (user_id : uuid) : Request (list GoalRef.t)
| UpdateTaskCompleted (id : uuid) (completed : bool) : Request unit
| UpdateGoalCompleted (id : uuid) (completed : bool) : Request unit
| UpdateMilestoneCompleted (id : uuid) (completed : bool) : Request unit
| InsertTask (payload : gmap string jsval) : Request unit
| InsertTimeBlock (payload : gmap string jsval) : Request unit
| InsertGoal (payload : gmap string jsval) : Request unit
| InsertMilestone (payload : gmap string jsval) : Request unit.

Definition is_select {R} (req : Request R) : bool :=
  match req with
  | SelectTasks _ _ | SelectTimeBlocks _ _ | SelectGoals _ | SelectMilestones _
  | SelectGoalTitles _ => true
  | _ => false
  end.

(** The [{ data, error }] object a request resolves to. *)
Record Reply (R : Type) : Type := mkReply {
  data : option R;
  error : option pg_error
}.
Arguments mkReply {R} data error.
Arguments data {R} _.
Arguments error {R} _.

Definition rows_reply {R} (rows : R) : Reply R := mkReply (Some rows) None.
Definition error_reply {R} (e : pg_error) : Reply R := mkReply None (Some e).
(** A write without [.select()] resolves to [{ data: null, error: null }]. *)
Definition written (r : result Store) (db : Store) : Reply unit * Store :=
  match r with
  | Ok db' => (mkReply None None, db')
  | Err e => (error_reply e, db)
  end.

Definition serve (env : Env) {R} (req : Request R) (db : Store) : Reply R * Store :=
  match req in Request R return Reply R * Store with
  | SelectTasks uid d => (rows_reply (select_tasks (auth_uid env) uid d db), db)
  | SelectTimeBlocks uid d =>
      (rows_reply (select_time_blocks (auth_uid env) uid d db), db)
  | SelectGoals uid => (rows_reply (select_goals (auth_uid env) uid db), db)
  | SelectMilestones uid =>
      (rows_reply (select_milestones (auth_uid env) uid db), db)
  | SelectGoalTitles uid =>
      (rows_reply (select_goal_titles (auth_uid env) uid db), db)
  | UpdateTaskCompleted rid b =>
      written (Ok (set_tasks (update_completed Task_touch env rid b) db)) db
  | UpdateGoalCompleted rid b =>
      written (Ok (set_goals (update_completed Goal_touch env rid b) db)) db
  | UpdateMilestoneCompleted rid b =>
      written (Ok (set_milestones (update_completed Milestone_touch env rid b) db)) db
  | InsertTask p => written (insert_task env p db) db
  | InsertTimeBlock p => written (insert_time_block env p db) db
  | InsertGoal p => written (insert_goal env p db) db
  | InsertMilestone p => written (insert_milestone env p db) db
  end.

(** A request that never reaches the store. *)
Definition unreachable {S : Type} {R} (req : Request R) (s : S) : Reply R * S :=
  (error_reply network_failure, s).

(** ** Asynchronous component code

    An [async] function is a tree of its steps: state-setter calls, calls
    with an outside effect, and [await]s whose continuation receives the
    reply. *)

Inductive Effect : Type :=
| toast_error (msg : string)
| toast_success (msg : string)
| console_error (msg : string)
| sounds_complete
| sounds_toggle
| onOpenChange (open : bool).

Inductive Prog (St : Type) : Type :=
| Return
| SetState (f : St → St) (k : Prog St)
| Do (e : Effect) (k : Prog St)
| Await {R : Type} (req : Request R) (k : Reply R → Prog St).
Arguments Return {St}.
Arguments SetState {St} f k.
Arguments Do {St} e k.
Arguments Await {St R} req k.

Inductive Action : Type :=
| Performed (e : Effect)
| Issued {R : Type} (req : Request R).

Definition is_fetch (a : Action) : bool :=
  match a with
  | Performed _ => false
  | Issued req => is_select req
  end.

(** Running a function to its end when every round-trip is awaited with
    nothing else in between: the backend [srv] answers each request at
    once. Returns the view state, the backend state and what was done. *)
Fixpoint exec {St S : Type} (srv : ∀ R, Request R → S → Reply R * S)
    (p : Prog St) (st : St) (s : S) : St * S * list Action :=
  match p with
  | Return => (st, s, [])
  | SetState f k => exec srv k (f st) s
  | Do e k =>
      let '(st', s', tr) := exec srv k st s in (st', s', Performed e :: tr)
  | Await req k =>
      let '(reply, s1) := srv _ req s in
      let '(st', s', tr) := exec srv (k reply) st s1 in
      (st', s', Issued req :: tr)
  end.

(** The same code under interleaving: a mounted component instance with
    its state cell, the requests still in flight with their continuations,
    and its realtime channels. *)

Record Pending (St : Type) : Type := mkPending {
  awaited : Type;
  request : Request awaited;
  resume : Reply awaited → Prog St
}.
Arguments mkPending {St awaited} request resume.
Arguments awaited {St} _.
Arguments request {St} _.
Arguments resume {St} _ _.

Record Channel (St : Type) : Type := mkChannel {
  channel_name : string;
  channel_table : string;
  channel_filter : uuid;        (* user_id=eq.${user.id} *)
  channel_callback : Prog St
}.
Arguments mkChannel {St} _ _ _ _.
Arguments channel_name {St} _.
Arguments channel_table {St} _.
Arguments channel_filter {St} _.
Arguments channel_callback {St} _.

Record Runtime (St : Type) : Type := mkRuntime {
  state : St;
  mounted : bool;               (* false once React has unmounted the instance *)
  inflight : list (Pending St);
  channels : list (Channel St);
  actions : list Action
}.
Arguments mkRuntime {St} _ _ _ _ _.
Arguments state {St} _.
Arguments mounted {St} _.
Arguments inflight {St} _.
Arguments channels {St} _.
Arguments actions {St} _.

Section runtime.
Context {St : Type}.

(** Run a function up to its first [await]. The code of a component
    never looks at [mounted]; React does: the state setter of an instance
    that has been unmounted changes nothing. Everything else the function
    does (toasts, sounds, requests) happens as before. *)
Fixpoint start (p : Prog St) (rt : Runtime St) : Runtime St :=
  match p with
  | Return => rt
  | SetState f k =>
      start k (mkRuntime (if mounted rt then f (state rt) else state rt)
                         (mounted rt) (inflight rt) (channels rt) (actions rt))
  | Do e k =>
      start k (mkRuntime (state rt) (mounted rt) (inflight rt) (channels rt)
                         (actions rt ++ [Performed e]))
  | Await req k =>
      mkRuntime (state rt) (mounted rt) (inflight rt ++ [mkPending req k])
                (channels rt) (actions rt ++ [Issued req])
  end.

(** The [i]-th request in flight resolves with the reply [answer] gives. *)
Definition settle (i : nat) (answer : ∀ R, Request R → Reply R)
    (rt : Runtime St) : Runtime St :=
  match inflight rt !! i with
  | None => rt
  | Some p =>
      start (resume p (answer _ (request p)))
            (mkRuntime (state rt) (mounted rt) (delete i (inflight rt))
                       (channels rt) (actions rt))
  end.

(** supabase.channel(name).on('postgres_changes', ...).subscribe() *)
Definition subscribe (ch : Channel St) (rt : Runtime St) : Runtime St :=
  mkRuntime (state rt) (mounted rt) (inflight rt) (channels rt ++ [ch])
            (actions rt).

(** supabase.removeChannel(channel) *)
Definition removeChannel (name : string) (rt : Runtime St) : Runtime St :=
  mkRuntime (state rt) (mounted rt) (inflight rt)
            (filter (λ ch, channel_name ch ≠ name) (channels rt))
            (actions rt).

(** A change to a row of [tbl] owned by [uid]: every live channel on
    that table and owner runs its callback. *)
Definition notify (tbl : string) (uid : uuid) (rt : Runtime St) : Runtime St :=
  foldl (λ rt ch,
           if decide (channel_table ch = tbl ∧ channel_filter ch = uid)
           then start (channel_callback ch) rt else rt)
        rt (channels rt).
End runtime.

(** Replies arriving one after another: each names the request in flight
    that it resolves, by its position at that moment. *)
Definition settle_all {St} (late : list (nat * (∀ R, Request R → Reply R)))
    (rt : Runtime St) : Runtime St :=
  foldl (λ rt a, settle a.1 a.2 rt) rt late.

(** [prev.map(r => r.id === rid ? { ...r, completed: b } : r)] *)
Definition map_completed {A} `{Completable A} (rid : uuid) (b : bool)
    (prev : list A) : list A :=
  (λ r, if decide (key r = rid) then with_completed b r else r) <$> prev.

(** [data || []] *)
Definition or_empty {A} (d : option (list A)) : list A := default [] d.

(** Mounting runs the effect on the initial state; unmounting runs the
    cleanup the effect returned. *)
Definition mount {St} (init : St) (effect : Runtime St → Runtime St)
  : Runtime St :=
  effect (mkRuntime init true [] [] []).

Definition unmount {St} (cleanup : Runtime St → Runtime St) (rt : Runtime St)
  : Runtime St :=
  let rt := cleanup rt in
  mkRuntime (state rt) false (inflight rt) (channels rt) (actions rt).

(** ** TodayView *)

Module TodayView.
Record State : Type := mkState {
  tasks : list Task.t;
  timeBlocks : list TimeBlock.t
}.

Definition initial : State := mkState [] [].

Definition setTasks (f : list Task.t → list Task.t) (st : State) : State :=
  mkState (f (tasks st)) (timeBlocks st).
Definition setTimeBlocks (f : list TimeBlock.t → list TimeBlock.t) (st : State)
  : State :=
  mkState (tasks st) (f (timeBlocks st)).

Definition fetchTasks (user_id : uuid) (today : date) : Prog State :=
  Await (SelectTasks user_id today) (λ r,
    match error r with
    | Some _ => Do (toast_error "Failed to load tasks") Return
    | None => SetState (setTasks (λ _, or_empty (data r))) Return
    end).

Definition fetchTimeBlocks (user_id : uuid) (today : date) : Prog State :=
  Await (SelectTimeBlocks user_id today) (λ r,
    match error r with
    | Some _ => Do (toast_error "Failed to load time blocks") Return
    | None => SetState (setTimeBlocks (λ _, or_empty (data r))) Return
    end).

(** The body of [useEffect(..., [user, today])] and the cleanup it
    returns. With no user the effect returns before doing anything and
    there is no cleanup. *)
Definition effect (user : option uuid) (today : date) (rt : Runtime State)
  : Runtime State :=
  match user with
  | None => rt
  | Some uid =>
      let rt := start (fetchTasks uid today) rt in
      let rt := start (fetchTimeBlocks uid today) rt in
      let rt := subscribe
                  (mkChannel "tasks-changes" "tasks" uid (fetchTasks uid today))
                  rt in
      subscribe
        (mkChannel "blocks-changes" "time_blocks" uid
                   (fetchTimeBlocks uid today))
        rt
  end.

Definition cleanup (user : option uuid) (rt : Runtime State) : Runtime State :=
  match user with
  | None => rt
  | Some _ => removeChannel "blocks-changes" (removeChannel "tasks-changes" rt)
  end.

(** A later render whose [user] or [today] differs from the ones the
    effect last ran with: cleanup, then the effect again. *)
Definition rerender (user : option uuid) (today : date)
    (user' : option uuid) (today' : date) (rt : Runtime State)
  : Runtime State :=
  if decide (user = user' ∧ today = today') then rt
  else effect user' today' (cleanup user rt).

Definition toggleTask (taskId : uuid) (currentStatus : bool) : Prog State :=
  let newStatus := negb currentStatus in
  SetState (setTasks (map_completed taskId newStatus))
  (Do (if newStatus then sounds_complete else sounds_toggle)
  (Await (UpdateTaskCompleted taskId newStatus) (λ r,
    match error r with
    | Some _ =>
        Do (toast_error "Failed to update task")
        (SetState (setTasks (map_completed taskId currentStatus)) Return)
    | None => Return
    end))).

(** [onCheckedChange={() => toggleTask(task.id, task.completed)}] on the
    checkbox of the [i]-th rendered task. *)
Definition onCheckedChange (i : nat) (st : State) : Prog State :=
  match tasks st !! i with
  | Some task => toggleTask (Task.id task) (Task.completed task)
  | None => Return
  end.
End TodayView.

(** ** GoalsView *)

Module GoalsView.
Record State : Type := mkState {
  goals : list Goal.t;
  activeTab : goal_type
}.

Definition initial : State := mkState [] yearly.

Definition setGoals (f : list Goal.t → list Goal.t) (st : State) : State :=
  mkState (f (goals st)) (activeTab st).
Definition setActiveTab (v : goal_type) (st : State) : State :=
  mkState (goals st) v.

Definition fetchGoals (user_id : uuid) : Prog State :=
  Await (SelectGoals user_id) (λ r,
    match error r with
    | Some _ => Do (toast_error "Failed to load goals") Return
    | None => SetState (setGoals (λ _, or_empty (data r))) Return
    end).

Definition effect (user : option uuid) (rt : Runtime State) : Runtime State :=
  match user with
  | None => rt
  | Some uid =>
      let rt := start (fetchGoals uid) rt in
      subscribe (mkChannel "goals-changes" "goals" uid (fetchGoals uid)) rt
  end.

Definition cleanup (user : option uuid) (rt : Runtime State) : Runtime State :=
  match user with
  | None => rt
  | Some _ => removeChannel "goals-changes" rt
  end.

Definition toggleGoal (goalId : uuid) (currentStatus : bool) : Prog State :=
  let newStatus := negb currentStatus in
  SetState (setGoals (map_completed goalId newStatus))
  (Do (if newStatus then sounds_complete else sounds_toggle)
  (Await (UpdateGoalCompleted goalId newStatus) (λ r,
    match error r with
    | Some _ =>
        Do (toast_error "Failed to update goal")
        (SetState (setGoals (map_completed goalId currentStatus)) Return)
    | None => Return
    end))).

(** [goals.filter(g => g.goal_type === activeTab)] *)
Definition filteredGoals (st : State) : list Goal.t :=
  filter (λ g, Goal.goal_type g = activeTab st) (goals st).

Definition onCheckedChange (i : nat) (st : State) : Prog State :=
  match filteredGoals st !! i with
  | Some goal => toggleGoal (Goal.id goal) (Goal.completed goal)
  | None => Return
  end.
End GoalsView.

(** ** MilestonesView *)

Module MilestonesView.
Record State : Type := mkState {
  milestones : list Milestone.t;
  goals : list GoalRef.t
}.

Definition initial : State := mkState [] [].

Definition setMilestones (f : list Milestone.t → list Milestone.t) (st : State)
  : State :=
  mkState (f (milestones st)) (goals st).
Definition setGoals (f : list GoalRef.t → list GoalRef.t) (st : State) : State :=
  mkState (milestones st) (f (goals st)).

(** The second read starts only after the first has resolved. *)
Definition fetchData (user_id : uuid) : Prog State :=
  Await (SelectMilestones user_id) (λ r,
    let fetch_goals :=
      Await (SelectGoalTitles user_id) (λ r',
        match error r' with
        | Some _ => Do (console_error "Failed to load goals") Return
        | None => SetState (setGoals (λ _, or_empty (data r'))) Return
        end) in
    match error r with
    | Some _ => Do (toast_error "Failed to load milestones") fetch_goals
    | None => SetState (setMilestones (λ _, or_empty (data r))) fetch_goals
    end).

Definition effect (user : option uuid) (rt : Runtime State) : Runtime State :=
  match user with
  | None => rt
  | Some uid =>
      let rt := start (fetchData uid) rt in
      subscribe (mkChannel "milestones-changes" "milestones" uid (fetchData uid))
                rt
  end.

Definition cleanup (user : option uuid) (rt : Runtime State) : Runtime State :=
  match user with
  | None => rt
  | Some _ => removeChannel "milestones-changes" rt
  end.

Definition toggleMilestone (milestoneId : uuid) (currentStatus : bool)
  : Prog State :=
  let newStatus := negb currentStatus in
  SetState (setMilestones (map_completed milestoneId newStatus))
  (Do (if newStatus then sounds_complete else sounds_toggle)
  (Await (UpdateMilestoneCompleted milestoneId newStatus) (λ r,
    match error r with
    | Some _ =>
        Do (toast_error "Failed to update milestone")
        (SetState (setMilestones (map_completed milestoneId currentStatus))
                  Return)
    | None => Return
    end))).

Definition onCheckedChange (i : nat) (st : State) : Prog State :=
  match milestones st !! i with
  | Some milestone =>
      toggleMilestone (Milestone.id milestone) (Milestone.completed milestone)
  | None => Return
  end.
End MilestonesView.

(** ** AddItemModal *)

Module AddItemModal.
Record State : Type := mkState { loading : bool }.

Definition initial : State := mkState false.
Definition setLoading (b : bool) (st : State) : State := mkState b.

(** [new FormData(e.currentTarget)]: field name to submitted text. *)
Abbreviation FormData := (gmap string string) (only parsing).

Definition task_payload (user_id : uuid) (today : date) (formData : FormData)
  : gmap string jsval :=
  {[ "user_id" := JStr user_id;
     "title" := as_string (formData !! "task-title");
     "task_date" := JStr today;
     "alarm_time" := or_null (formData !! "alarm-time") ]}.

Definition time_block_payload (user_id : uuid) (today : date)
    (formData : FormData) : gmap string jsval :=
  {[ "user_id" := JStr user_id;
     "title" := as_string (formData !! "block-title");
     "description" := or_null (formData !! "block-description");
     "block_date" := JStr today;
     "start_time" := as_string (formData !! "start-time");
     "end_time" := as_string (formData !! "end-time") ]}.

Definition goal_payload (user_id : uuid) (formData : FormData)
  : gmap string jsval :=
  {[ "user_id" := JStr user_id;
     "title" := as_string (formData !! "goal-title");
     "description" := or_null (formData !! "goal-description");
     "goal_type" := as_string (formData !! "goal-type");
     "target_date" := or_null (formData !! "target-date") ]}.

Definition milestone_payload (user_id : uuid) (formData : FormData)
  : gmap string jsval :=
  {[ "user_id" := JStr user_id;
     "title" := as_string (formData !! "milestone-title");
     "description" := or_null (formData !! "milestone-description");
     "target_date" := or_null (formData !! "milestone-date") ]}.

(** The shape shared by the four submit handlers: return when there is
    no user; otherwise set [loading], await the insert, toast, close the
    dialog on success, clear [loading]. ([e.preventDefault()] has no
    counterpart here.) *)
Definition submit (user : option uuid) (req : uuid → Request unit)
    (failed succeeded : string) : Prog State :=
  match user with
  | None => Return
  | Some uid =>
      SetState (setLoading true)
      (Await (req uid) (λ r,
         match error r with
         | Some _ => Do (toast_error failed) (SetState (setLoading false) Return)
         | None =>
             Do (toast_success succeeded)
             (Do (onOpenChange false) (SetState (setLoading false) Return))
         end))
  end.

Definition handleAddTask (user : option uuid) (today : date)
    (formData : FormData) : Prog State :=
  submit user (λ uid, InsertTask (task_payload uid today formData))
         "Failed to add task" "Task added!".

Definition handleAddTimeBlock (user : option uuid) (today : date)
    (formData : FormData) : Prog State :=
  submit user (λ uid, InsertTimeBlock (time_block_payload uid today formData))
         "Failed to add time block" "Time block added!".

Definition handleAddGoal (user : option uuid) (formData : FormData)
  : Prog State :=
  submit user (λ uid, InsertGoal (goal_payload uid formData))
         "Failed to add goal" "Goal added!".

Definition handleAddMilestone (user : option uuid) (formData : FormData)
  : Prog State :=
  submit user (λ uid, InsertMilestone (milestone_payload uid formData))
         "Failed to add milestone" "Milestone added!".

(** One render of the component. [clock] is what
    [format(new Date(), 'yyyy-MM-dd')] evaluates to during that render;
    the handlers handed to the four forms close over it. *)
Record Handlers : Type := mkHandlers {
  onSubmitTask : FormData → Prog State;
  onSubmitTimeBlock : FormData → Prog State;
  onSubmitGoal : FormData → Prog State;
  onSubmitMilestone : FormData → Prog State
}.

Definition render (user : option uuid) (clock : date) : Handlers :=
  let today := clock in
  mkHandlers (handleAddTask user today) (handleAddTimeBlock user today)
             (handleAddGoal user) (handleAddMilestone user).

(** What the user does with the dialog, each step tagged with the day it
    happens on. Typing into the uncontrolled inputs causes no render. *)
Inductive Form : Type := TaskForm | TimeBlockForm | GoalForm | MilestoneForm.

Inductive Event : Type :=
| Rendered (clock : date)
| Submitted (clock : date) (form : Form) (formData : FormData).

Definition handler (h : Handlers) (form : Form) : FormData → Prog State :=
  match form with
  | TaskForm => onSubmitTask h
  | TimeBlockForm => onSubmitTimeBlock h
  | GoalForm => onSubmitGoal h
  | MilestoneForm => onSubmitMilestone h
  end.

(** What one submission did, with the day of the render whose handlers
    it ran and the day it happened on. *)
Record Submission : Type := mkSubmission {
  rendered_on : date;
  submitted_on : date;
  did : list Action
}.

(** The submissions of a sequence of events. [rendered] is the day of
    the latest render; a submission by a signed-in user sets [loading],
    which renders the component again, here on the day of the submission
    (a render on a later day is a [Rendered] event of its own). *)
Fixpoint run {S : Type} (srv : ∀ R, Request R → S → Reply R * S)
    (user : option uuid) (rendered : date) (st : State) (s : S)
    (events : list Event) : list Submission :=
  match events with
  | [] => []
  | Rendered clock :: events => run srv user clock st s events
  | Submitted clock form formData :: events =>
      let '(st', s', tr) :=
        exec srv (handler (render user rendered) form formData) st s in
      let rendered' := match user with Some _ => clock | None => rendered end in
      mkSubmission rendered clock tr :: run srv user rendered' st' s' events
  end.

(** The component is rendered once, on day [clock], when it mounts. *)
Definition session {S : Type} (srv : ∀ R, Request R → S → Reply R * S)
    (user : option uuid) (clock : date) (s : S) (events : list Event)
  : list Submission :=
  run srv user clock initial s events.
End AddItemModal.

(** The table and payload of an insert, for an action that issues one. *)
Definition inserted (a : Action) : option (string * gmap string jsval) :=
  match a with
  | Issued req =>
      match req with
      | InsertTask p => Some ("tasks", p)
      | InsertTimeBlock p => Some ("time_blocks", p)
      | InsertGoal p => Some ("goals", p)
      | InsertMilestone p => Some ("milestones", p)
      | _ => None
      end
  | Performed _ => None
  end.

(** The entry that a function leaves in flight when it has run up to its
    first [await]. *)
Fixpoint suspended {St} (p : Prog St) : option (Pending St) :=
  match p with
  | Return => None
  | SetState _ k | Do _ k => suspended k
  | Await req k => Some (mkPending req k)
  end.

(** A row transformation applied to every run on the stack of the merge
    sort. *)
Definition stack_fmap {A} (f : A → A) (st : list (option (list A)))
  : list (option (list A)) :=
  (λ o : option (list A), (λ l : list A, f <$> l) <$> o) <$> st.

(** ** Sample data *)

Definition alice : uuid := "a11ce".
Definition bob : uuid := "b0b".

(** The conversions at the texts the sample forms use. *)
Definition sample_time_in (s : string) : option time :=
  if decide (s = "09:00") then Some 540
  else if decide (s = "10:00") then Some 600
  else None.
Definition sample_date_in (s : string) : option date :=
  if decide (s = "2025-03-01") then Some "2025-03-01" else None.

Definition alice_env : Env :=
  mkEnv alice 100 "t9" sample_time_in sample_date_in.
Definition bob_env : Env :=
  mkEnv bob 100 "m9" sample_time_in sample_date_in.

Definition report : Task.t :=
  Task.mk "t1" alice "Write report" false "2025-01-01" None 10 10.
Definition review : Task.t :=
  Task.mk "t2" alice "Review proposal" true "2025-01-01" (Some 540) 20 25.
Definition errand : Task.t :=
  Task.mk "t3" bob "Buy milk" false "2025-01-01" None 15 15.

Definition spanish : Goal.t :=
  Goal.mk "g1" alice "Learn Spanish" None yearly None false 30 30.
Definition marathon : Goal.t :=
  Goal.mk "g2" alice "Run a marathon" None monthly None false 31 31.

Definition module1 : Milestone.t :=
  Milestone.mk "m1" alice (Some "g1") "Complete course module 1" None false None
               40 40.
Definition ten_km : Milestone.t :=
  Milestone.mk "m2" alice (Some "g2") "Run 10 km" None false None 41 41.
Definition passport : Milestone.t :=
  Milestone.mk "m3" alice None "Renew passport" None true None 42 42.

Definition sample_store : Store :=
  mkStore [AuthUser.mk alice ∅; AuthUser.mk bob ∅]
          [Profile.mk alice (Some "") 1 1; Profile.mk bob (Some "") 2 2]
          [report; review; errand] [] [spanish; marathon]
          [module1; ten_km; passport].

Definition carol : AuthUser.t :=
  AuthUser.mk "ca201" {[ "full_name" := JStr "Carol" ]}.

Definition today_state : TodayView.State := TodayView.mkState [report; review] [].
Definition goals_state : GoalsView.State :=
  GoalsView.mkState [marathon; spanish] yearly.
Definition milestones_state : MilestonesView.State :=
  MilestonesView.mkState [passport; ten_km; module1] [].

Definition task_form : gmap string string :=
  {[ "task-title" := "Call the bank"; "alarm-time" := "" ]}.
Definition block_form : gmap string string :=
  {[ "block-title" := "Morning workout"; "block-description" := "";
     "start-time" := "09:00"; "end-time" := "10:00" ]}.
Definition milestone_form : gmap string string :=
  {[ "milestone-title" := "Complete course module 2";
     "milestone-description" := ""; "milestone-date" := "2025-03-01" ]}.

(** The store's answers at one instant, as a reply function. *)
Definition answers_of (env : Env) (db : Store) : ∀ R, Request R → Reply R :=
  λ R req, (serve env req db).1.

(** ** What identity [X] owns *)

(** The store with every row of the four entity tables that [X] does not
    own taken away. *)
Definition own (X : uuid) (db : Store) : Store :=
  mkStore (users db) (profiles db) (visible X (tasks db))
          (visible X (time_blocks db)) (visible X (goals db))
          (visible X (milestones db)).

(** [id UUID PRIMARY KEY REFERENCES auth.users(id)] on profiles. *)
Definition profiles_reference_users (db : Store) : Prop :=
  ∀ p, p ∈ profiles db → Profile.id p ∈ AuthUser.id <$> users db.

(** ** More of the schema and of the components *)

(** DELETE FROM auth.users WHERE id = uid. Every table references
    [auth.users(id) ON DELETE CASCADE] through [user_id] (profiles through
    [id]); the goals that go take with them the milestones that reference
    them, whoever owns those. *)
Definition delete_user (uid : uuid) (db : Store) : Store :=
  let gone := Goal.id <$> filter (λ g, Goal.user_id g = uid) (goals db) in
  mkStore (filter (λ u, AuthUser.id u ≠ uid) (users db))
          (filter (λ p, Profile.id p ≠ uid) (profiles db))
          (filter (λ r, Task.user_id r ≠ uid) (tasks db))
          (filter (λ r, TimeBlock.user_id r ≠ uid) (time_blocks db))
          (filter (λ r, Goal.user_id r ≠ uid) (goals db))
          (filter (λ m, Milestone.user_id m ≠ uid ∧ outlives gone m)
                  (milestones db)).

(** What the constraints of the schema promise of a store: primary keys
    are unique, every [user_id] (and every profile [id]) names a user, and
    every non-NULL [goal_id] names a goal. *)
Record integrity (db : Store) : Prop := mkIntegrity {
  users_pkey : NoDup (AuthUser.id <$> users db);
  profiles_pkey : NoDup (Profile.id <$> profiles db);
  tasks_pkey : NoDup (Task.id <$> tasks db);
  time_blocks_pkey : NoDup (TimeBlock.id <$> time_blocks db);
  goals_pkey : NoDup (Goal.id <$> goals db);
  milestones_pkey : NoDup (Milestone.id <$> milestones db);
  profiles_id_fkey : ∀ p, p ∈ profiles db → user_exists (Profile.id p) db;
  tasks_user_id_fkey : ∀ r, r ∈ tasks db → user_exists (Task.user_id r) db;
  time_blocks_user_id_fkey :
    ∀ r, r ∈ time_blocks db → user_exists (TimeBlock.user_id r) db;
  goals_user_id_fkey : ∀ r, r ∈ goals db → user_exists (Goal.user_id r) db;
  milestones_user_id_fkey :
    ∀ r, r ∈ milestones db → user_exists (Milestone.user_id r) db;
  milestones_goal_id_fkey :
    ∀ r, r ∈ milestones db → goal_reference_ok (Milestone.goal_id r) db
}.

(** [getGoalTitle] of MilestonesView: nothing for a missing (or empty)
    goal id; otherwise the title of the first loaded goal with that id,
    if there is one. *)
Definition getGoalTitle (st : MilestonesView.State) (goalId : option uuid)
  : option string :=
  match goalId with
  | None => None
  | Some gid =>
      if decide (gid = "") then None
      else GoalRef.title <$>
             head (filter (λ g, GoalRef.id g = gid) (MilestonesView.goals st))
  end.

(** ** Navbar *)

Module Navbar.
(** The component's state and the class list of [document.documentElement]
    that it reads and writes. *)
Record World : Type := mkWorld {
  isDark : bool;
  classList : gset string
}.

(** [classList.toggle(c)] *)
Definition classList_toggle (c : string) (cls : gset string) : gset string :=
  if decide (c ∈ cls) then cls ∖ {[c]} else cls ∪ {[c]}.

(** [useState(false)]; the document is as the page left it. *)
Definition initial (cls : gset string) : World := mkWorld false cls.

(** The mount effect: [setIsDark(classList.contains('dark'))]. *)
Definition effect (w : World) : World :=
  mkWorld (bool_decide ("dark" ∈ classList w)) (classList w).

Definition toggleTheme (w : World) : World :=
  mkWorld (negb (isDark w)) (classList_toggle "dark" (classList w)).

(** The component mounted on a document, then the theme button clicked
    [n] times; every click is handled by the handler of the latest
    render. *)
Definition clicks (n : nat) (cls : gset string) : World :=
  Nat.iter n toggleTheme (effect (initial cls)).
End Navbar.

(** ** Dashboard *)

Module Dashboard.
Inductive View : Type := Today | Goals | Milestones.

#[global] Instance View_eq_dec : EqDecision View.
Proof. solve_decision. Defined.

(** The view on screen, with the component instance that renders it.
    TodayView keeps the [today] its effect last ran with. *)
Inductive Screen : Type :=
| TodayScreen (today : date) (rt : Runtime TodayView.State)
| GoalsScreen (rt : Runtime GoalsView.State)
| MilestonesScreen (rt : Runtime MilestonesView.State).

Record App : Type := mkApp {
  activeView : View;
  modalOpen : bool;
  screen : Screen;
  (** names of channels that views no longer on screen left subscribed *)
  left_behind : list string
}.

(** [{activeView === v && <V />}]: mounting the view that [v] selects. *)
Definition show (user : option uuid) (clock : date) (v : View) : Screen :=
  match v with
  | Today => TodayScreen clock (mount TodayView.initial (TodayView.effect user clock))
  | Goals => GoalsScreen (mount GoalsView.initial (GoalsView.effect user))
  | Milestones =>
      MilestonesScreen (mount MilestonesView.initial (MilestonesView.effect user))
  end.

(** Taking a view off screen runs its cleanup; what is still subscribed
    afterwards stays behind. *)
Definition hide (user : option uuid) (s : Screen) : list string :=
  match s with
  | TodayScreen today rt =>
      channel_name <$> channels (unmount (TodayView.cleanup user) rt)
  | GoalsScreen rt => channel_name <$> channels (unmount (GoalsView.cleanup user) rt)
  | MilestonesScreen rt =>
      channel_name <$> channels (unmount (MilestonesView.cleanup user) rt)
  end.

Definition subscribed (s : Screen) : list string :=
  match s with
  | TodayScreen _ rt => channel_name <$> channels rt
  | GoalsScreen rt => channel_name <$> channels rt
  | MilestonesScreen rt => channel_name <$> channels rt
  end.

Definition initial (user : option uuid) (clock : date) : App :=
  mkApp Today false (show user clock Today) [].

Inductive Event : Type :=
| SetActiveView (view : View) (clock : date)   (* a Navbar button *)
| SetModalOpen (open : bool)                   (* the + button, the dialog *)
| Rendered (clock : date)                      (* a render on day [clock] *)
| Checked (i : nat)                            (* the i-th checkbox *)
| Notified (table : string) (owner : uuid)     (* a realtime event *)
| Settled (i : nat) (answer : ∀ R, Request R → Reply R).

Definition step (user : option uuid) (app : App) (ev : Event) : App :=
  match ev with
  | SetActiveView view clock =>
      if decide (view = activeView app) then app
      else mkApp view (modalOpen app) (show user clock view)
                 (left_behind app ++ hide user (screen app))
  | SetModalOpen open =>
      mkApp (activeView app) open (screen app) (left_behind app)
  | Rendered clock =>
      match screen app with
      | TodayScreen today rt =>
          mkApp (activeView app) (modalOpen app)
                (TodayScreen clock (TodayView.rerender user today user clock rt))
                (left_behind app)
      | _ => app
      end
  | Checked i =>
      let s :=
        match screen app with
        | TodayScreen today rt =>
            TodayScreen today (start (TodayView.onCheckedChange i (state rt)) rt)
        | GoalsScreen rt =>
            GoalsScreen (start (GoalsView.onCheckedChange i (state rt)) rt)
        | MilestonesScreen rt =>
            MilestonesScreen (start (MilestonesView.onCheckedChange i (state rt)) rt)
        end in
      mkApp (activeView app) (modalOpen app) s (left_behind app)
  | Notified table owner =>
      let s :=
        match screen app with
        | TodayScreen today rt => TodayScreen today (notify table owner rt)
        | GoalsScreen rt => GoalsScreen (notify table owner rt)
        | MilestonesScreen rt => MilestonesScreen (notify table owner rt)
        end in
      mkApp (activeView app) (modalOpen app) s (left_behind app)
  | Settled i answer =>
      let s :=
        match screen app with
        | TodayScreen today rt => TodayScreen today (settle i answer rt)
        | GoalsScreen rt => GoalsScreen (settle i answer rt)
        | MilestonesScreen rt => MilestonesScreen (settle i answer rt)
        end in
      mkApp (activeView app) (modalOpen app) s (left_behind app)
  end.

Definition run (user : option uuid) (clock : date) (events : list Event) : App :=
  foldl (step user) (initial user clock) events.

(** The channels a view subscribes to. *)
Definition channels_of (user : option uuid) (v : View) : list string :=
  match user with
  | None => []
  | Some _ =>
      match v with
      | Today => ["tasks-changes"; "blocks-changes"]
      | Goals => ["goals-changes"]
      | Milestones => ["milestones-changes"]
      end
  end.
End Dashboard.

(** * Properties *)

(** ** Ordering and filtering *)

Section order_facts.
Context {A : Type} (col : A → Z) (ascending : bool).

#[local] Instance precedes_total : Total (precedes col ascending).
Proof. intros a b. unfold precedes. destruct ascending; lia. Qed.

#[local] Instance precedes_trans : Transitive (precedes col ascending).
Proof. intros a b c. unfold precedes. destruct ascending; lia. Qed.

Lemma order_Permutation rows : order col ascending rows ≡ₚ rows.
Proof. apply merge_sort_Permutation. Qed.

Lemma elem_of_order x rows : x ∈ order col ascending rows ↔ x ∈ rows.
Proof. by rewrite order_Permutation. Qed.

Lemma order_Sorted rows : Sorted (precedes col ascending) (order col ascending rows).
Proof. apply Sorted_merge_sort, _. Qed.

Lemma order_StronglySorted rows :
  StronglySorted (precedes col ascending) (order col ascending rows).
Proof. apply StronglySorted_merge_sort; apply _. Qed.
End order_facts.

Section visible_facts.
Context {A : Type} `{Owned A}.

Lemma elem_of_visible X (r : A) rows : r ∈ visible X rows ↔ owner r = X ∧ r ∈ rows.
Proof. unfold visible. by rewrite list_elem_of_filter. Qed.

Lemma visible_idemp X (rows : list A) : visible X (visible X rows) = visible X rows.
Proof.
  unfold visible. induction rows as [|r rows IH]; [done|].
  rewrite (filter_cons _ r rows). case_decide as Hr.
  - rewrite filter_cons_True by done. by rewrite IH.
  - done.
Qed.

Lemma visible_app X (l1 l2 : list A) :
  visible X (l1 ++ l2) = visible X l1 ++ visible X l2.
Proof. apply filter_app. Qed.
End visible_facts.

Lemma Forall_order {A} (P : A → Prop) col asc (rows : list A) :
  Forall P rows → Forall P (order col asc rows).
Proof.
  rewrite !Forall_forall. intros HP x Hx. apply HP. by apply elem_of_order in Hx.
Qed.

Lemma Forall_filter_weaken {A} (P Q : A → Prop) `{∀ x, Decision (Q x)}
    (rows : list A) :
  Forall P rows → Forall P (filter Q rows).
Proof.
  rewrite !Forall_forall. intros HP x Hx. apply HP.
  by apply list_elem_of_filter in Hx as [_ ?].
Qed.

Lemma filter_all {A} (P : A → Prop) `{∀ x, Decision (P x)} (rows : list A) :
  (∀ x, x ∈ rows → P x) → filter P rows = rows.
Proof.
  induction rows as [|r rows IH]; intros HP; [done|].
  rewrite filter_cons_True by (apply HP; left).
  f_equal. apply IH. intros x Hx. apply HP. by right.
Qed.

Lemma filter_none {A} (P : A → Prop) `{∀ x, Decision (P x)} (rows : list A) :
  (∀ x, x ∈ rows → ¬ P x) → filter P rows = [].
Proof.
  induction rows as [|r rows IH]; intros HP; [done|].
  rewrite filter_cons_False by (apply HP; left).
  apply IH. intros x Hx. apply HP. by right.
Qed.

Lemma Forall_visible {A} `{Owned A} X (rows : list A) :
  Forall (λ r, owner r = X) (visible X rows).
Proof.
  apply Forall_forall. intros r Hr. by apply elem_of_visible in Hr as [? _].
Qed.

(** ** Isolation *)

(** C1. Whatever filter value the client sends, every row a read returns
    to the session of [X] from tasks, time_blocks, goals or milestones is
    owned by [X] (for the [id, title] projection of goals: is the
    projection of a goal owned by [X]), and the result is the same on the
    store with all rows of other identities taken away: those rows have no
    influence on what [X] observes. *)
Theorem scoped_reads_isolated (X uid : uuid) (d : date) (db : Store) :
  (Forall (λ r, Task.user_id r = X) (select_tasks X uid d db)
   ∧ Forall (λ r, TimeBlock.user_id r = X) (select_time_blocks X uid d db)
   ∧ Forall (λ r, Goal.user_id r = X) (select_goals X uid db)
   ∧ Forall (λ r, Milestone.user_id r = X) (select_milestones X uid db)
   ∧ Forall (λ t, ∃ g, g ∈ goals db ∧ Goal.user_id g = X ∧ t = goal_ref g)
            (select_goal_titles X uid db))
  ∧ (select_tasks X uid d db = select_tasks X uid d (own X db)
     ∧ select_time_blocks X uid d db = select_time_blocks X uid d (own X db)
     ∧ select_goals X uid db = select_goals X uid (own X db)
     ∧ select_milestones X uid db = select_milestones X uid (own X db)
     ∧ select_goal_titles X uid db = select_goal_titles X uid (own X db)).
Proof.
  split.
  - repeat split.
    + apply Forall_order. do 2 apply Forall_filter_weaken.
      apply (Forall_visible (A:=Task.t)).
    + apply Forall_order. do 2 apply Forall_filter_weaken.
      apply (Forall_visible (A:=TimeBlock.t)).
    + apply Forall_order. do 1 apply Forall_filter_weaken.
      apply (Forall_visible (A:=Goal.t)).
    + apply Forall_order. do 1 apply Forall_filter_weaken.
      apply (Forall_visible (A:=Milestone.t)).
    + apply Forall_forall. intros t Ht. unfold select_goal_titles in Ht.
      apply list_elem_of_fmap in Ht as (g & -> & Hg).
      apply list_elem_of_filter in Hg as [_ Hg].
      apply elem_of_visible in Hg as [Hown Hg]. by exists g.
  - unfold select_tasks, select_time_blocks, select_goals, select_milestones,
      select_goal_titles, own; simpl.
    by rewrite !visible_idemp.
Qed.

(** ** Ordering of loaded lists *)

Lemma order_filters {A} `{Owned A} (col : A → Z) (asc : bool) (X : uuid)
    (P Q : A → Prop) `{∀ x, Decision (P x), ∀ x, Decision (Q x)} (rows : list A) :
  (∀ r, Q r ↔ owner r = X ∧ P r) →
  order col asc (filter P (visible X rows)) ≡ₚ filter Q rows.
Proof.
  intros HQ. rewrite order_Permutation. unfold visible.
  rewrite list_filter_filter. apply reflexive_eq, list_filter_iff.
  intros r. rewrite HQ. tauto.
Qed.

(** C5. The list that a load run against the store leaves in local
    state, whatever was there before, is sorted by the view's key: tasks by [created_at] ascending, time blocks by
    [start_time] ascending, goals and milestones by [created_at]
    descending. The list is the rows of the table that the caller owns and
    that match the view's filters, each as often as the table holds it:
    nothing is dropped and nothing added. *)
Theorem loads_are_sorted (env : Env) (uid : uuid) (today : date) (db : Store)
    (st : TodayView.State) (sg : GoalsView.State) (sm : MilestonesView.State) :
  (let l := TodayView.tasks
              (exec (@serve env) (TodayView.fetchTasks uid today) st db).1.1 in
   StronglySorted (λ a b, Task.created_at a ≤ Task.created_at b) l
   ∧ l ≡ₚ filter (λ r, Task.user_id r = auth_uid env ∧ Task.user_id r = uid
                       ∧ Task.task_date r = today) (tasks db))
  ∧ (let l := TodayView.timeBlocks
                (exec (@serve env) (TodayView.fetchTimeBlocks uid today) st db).1.1 in
     StronglySorted (λ a b, TimeBlock.start_time a ≤ TimeBlock.start_time b) l
     ∧ l ≡ₚ filter (λ r, TimeBlock.user_id r = auth_uid env
                         ∧ TimeBlock.user_id r = uid
                         ∧ TimeBlock.block_date r = today) (time_blocks db))
  ∧ (let l := GoalsView.goals
                (exec (@serve env) (GoalsView.fetchGoals uid) sg db).1.1 in
     StronglySorted (λ a b, Goal.created_at b ≤ Goal.created_at a) l
     ∧ l ≡ₚ filter (λ r, Goal.user_id r = auth_uid env ∧ Goal.user_id r = uid)
                   (goals db))
  ∧ (let l := MilestonesView.milestones
                (exec (@serve env) (MilestonesView.fetchData uid) sm db).1.1 in
     StronglySorted (λ a b, Milestone.created_at b ≤ Milestone.created_at a) l
     ∧ l ≡ₚ filter (λ r, Milestone.user_id r = auth_uid env
                         ∧ Milestone.user_id r = uid) (milestones db)).
Proof.
  split; [|split; [|split]]; simpl; split.
  - exact (order_StronglySorted Task.created_at true _).
  - unfold select_tasks. rewrite list_filter_filter.
    apply (order_filters (A:=Task.t)). intros r. simpl. tauto.
  - exact (order_StronglySorted TimeBlock.start_time true _).
  - unfold select_time_blocks. rewrite list_filter_filter.
    apply (order_filters (A:=TimeBlock.t)). intros r. simpl. tauto.
  - exact (order_StronglySorted Goal.created_at false _).
  - unfold select_goals. apply (order_filters (A:=Goal.t)). intros r. simpl. tauto.
  - exact (order_StronglySorted Milestone.created_at false _).
  - unfold select_milestones. apply (order_filters (A:=Milestone.t)).
    intros r. simpl. tauto.
Qed.

(** The list a load leaves in local state is the store's answer. *)
Lemma fetchTasks_loads (env : Env) (uid : uuid) (today : date) (db : Store)
    (st : TodayView.State) :
  exec (@serve env) (TodayView.fetchTasks uid today) st db
  = (TodayView.mkState (select_tasks (auth_uid env) uid today db)
                       (TodayView.timeBlocks st),
     db, [Issued (SelectTasks uid today)]).
Proof. reflexivity. Qed.

(** ** Cascade from goals to milestones *)

Lemma outlives_single (gid : uuid) (gone : list uuid) (m : Milestone.t) :
  gid ∈ gone → (∀ x, x ∈ gone → x = gid) →
  outlives gone m ↔ Milestone.goal_id m ≠ Some gid.
Proof.
  intros Hin Hall. unfold outlives. destruct (Milestone.goal_id m) as [x|].
  - split.
    + intros Hx [= ->]. contradiction.
    + intros Hne Hx. apply Hall in Hx. congruence.
  - split; [discriminate|done].
Qed.

(** C4. When the owner of a goal [g] of the store deletes it, the
    milestones left are exactly those whose [goal_id] is not [g]'s id, in
    their order and unchanged: those with a NULL reference and those that
    reference another goal stay, those that referenced [g] go. The goal
    itself is gone. *)
Theorem delete_goal_cascades (env : Env) (g : Goal.t) (db : Store) :
  g ∈ goals db →
  auth_uid env = Goal.user_id g →
  milestones (delete_goal env (Goal.id g) db)
  = filter (λ m, Milestone.goal_id m ≠ Some (Goal.id g)) (milestones db)
  ∧ g ∉ goals (delete_goal env (Goal.id g) db).
Proof.
  intros Hg Hauth. split; simpl.
  - apply list_filter_iff. intros m. apply outlives_single.
    + apply list_elem_of_fmap. exists g. split; [done|].
      apply list_elem_of_filter. by rewrite Hauth.
    + intros x Hx. apply list_elem_of_fmap in Hx as (g' & -> & Hg').
      by apply list_elem_of_filter in Hg' as [[_ ?] _].
  - rewrite list_elem_of_filter. intros [Hn _]. apply Hn. by rewrite Hauth.
Qed.

(** A deletion the policy hides from the caller, or of a goal that does
    not exist, removes nothing. *)
Lemma delete_goal_no_match (env : Env) (gid : uuid) (db : Store) :
  (∀ g, g ∈ goals db → ¬ (Goal.user_id g = auth_uid env ∧ Goal.id g = gid)) →
  delete_goal env gid db = db.
Proof.
  intros Hno. unfold delete_goal.
  assert (filter (λ g, Goal.user_id g = auth_uid env ∧ Goal.id g = gid) (goals db)
          = []) as ->.
  { apply filter_none. exact Hno. }
  simpl. destruct db as [us ps ts bs gs ms]; simpl in *. f_equal.
  - apply filter_all. exact Hno.
  - apply filter_all. intros m _. unfold outlives.
    destruct (Milestone.goal_id m); [apply not_elem_of_nil|done].
Qed.

(** ** Inverting a successful write *)

Lemma bind_Ok {A B} (r : result A) (k : A → result B) (b : B) :
  r ≫= k = Ok b ↔ ∃ a, r = Ok a ∧ k a = Ok b.
Proof.
  destruct r as [a|e]; simpl.
  - split; [by exists a|]. by intros (? & [= <-] & ?).
  - split; [done|]. by intros (? & ? & _).
Qed.

Lemma check_Ok (P : Prop) `{Decision P} (e : pg_error) (u : unit) :
  check P e = Ok u ↔ P.
Proof. unfold check. destruct u. case_decide; naive_solver. Qed.

Lemma not_null_Ok (p : gmap string jsval) (c s : string) :
  not_null p c = Ok s ↔ p !! c = Some (JStr s).
Proof.
  unfold not_null, nullable.
  destruct (p !! c) as [[| |]|]; simpl; naive_solver.
Qed.

Ltac invert_write H :=
  repeat match type of H with
    | _ ≫= _ = Ok _ =>
        let a := fresh "a" in
        let E := fresh "E" in
        apply bind_Ok in H as (a & E & H)
    end.

Lemma insert_checks_Ok (env : Env) (columns : gset string) (ids : list uuid)
    (p : gmap string jsval) (db : Store) (uid : uuid) :
  insert_checks env columns ids p db = Ok uid ↔
    dom p ⊆ columns ∧ p !! "user_id" = Some (JStr uid) ∧ user_exists uid db
    ∧ auth_uid env = uid ∧ gen_random_uuid env ∉ ids.
Proof.
  unfold insert_checks. split.
  - intros H. invert_write H.
    repeat match goal with
      | H : check _ _ = Ok _ |- _ => apply check_Ok in H
      | H : not_null _ _ = Ok _ |- _ => apply not_null_Ok in H
      end.
    injection H as <-. done.
  - intros (? & ? & ? & ? & ?).
    apply bind_Ok. exists (). split; [by apply check_Ok|].
    apply bind_Ok. exists uid. split; [by apply not_null_Ok|].
    apply bind_Ok. exists (). split; [by apply check_Ok|].
    apply bind_Ok. exists (). split; [by apply check_Ok|].
    apply bind_Ok. exists (). split; [by apply check_Ok|done].
Qed.

(** ** Today's list *)


(** ** Profile of a new identity *)

(** C8. Creating an identity that is not yet in the store succeeds and
    adds exactly one profile row, keyed by the new identity; no other row
    for that key exists. Its [full_name] is the [full_name] supplied in the
    user metadata, and the empty string when the metadata has none. *)
Theorem new_identity_gets_one_profile (now : timestamp) (u : AuthUser.t)
    (db : Store) :
  profiles_reference_users db →
  AuthUser.id u ∉ AuthUser.id <$> users db →
  ∃ db' p,
    create_user now u db = Ok db'
    ∧ users db' = users db ++ [u]
    ∧ profiles db' = profiles db ++ [p]
    ∧ Profile.id p = AuthUser.id u
    ∧ filter (λ q, Profile.id q = AuthUser.id u) (profiles db') = [p]
    ∧ (∀ s, AuthUser.raw_user_meta_data u !! "full_name" = Some (JStr s) →
            Profile.full_name p = Some s)
    ∧ (AuthUser.raw_user_meta_data u !! "full_name" = None →
       Profile.full_name p = Some "").
Proof.
  intros Hfk Hfresh.
  assert (AuthUser.id u ∉ Profile.id <$> profiles db) as Hnone.
  { intros Hin. apply list_elem_of_fmap in Hin as (q & Hq & Hin).
    apply Hfresh. rewrite Hq. by apply Hfk. }
  eexists _, _. split.
  { unfold create_user, handle_new_user, check. simpl.
    rewrite !decide_True by done. simpl. reflexivity. }
  simpl. repeat split.
  - rewrite filter_app, filter_cons_True, filter_nil by done.
    rewrite filter_none; [done|]. intros q Hq Heq. apply Hnone.
    apply list_elem_of_fmap. by exists q.
  - intros s Hs. unfold json_field_text. by rewrite Hs.
  - intros Hs. unfold json_field_text. by rewrite Hs.
Qed.

(** The trigger is what creates the row: the insert into [auth.users]
    alone leaves [profiles] as it was, and with the key already taken the
    whole creation is refused. *)
Lemma create_user_refused (now : timestamp) (u : AuthUser.t) (db : Store) :
  AuthUser.id u ∈ Profile.id <$> profiles db →
  ∃ e, create_user now u db = Err e.
Proof.
  intros Hin. unfold create_user, handle_new_user, check.
  destruct (decide (AuthUser.id u ∉ AuthUser.id <$> users db)); simpl;
    [|by eexists].
  rewrite decide_False by (intros Hn; by apply Hn). simpl. by eexists.
Qed.

(** ** Optimistic toggle: the list transformation *)

Section map_completed_facts.
Context {A : Type} `{Completable A}.

Lemma key_unique (rows : list A) (r r' : A) :
  NoDup (key <$> rows) → r ∈ rows → r' ∈ rows → key r' = key r → r' = r.
Proof.
  induction rows as [|x rows IH]; intros Hnd Hr Hr' Hk.
  - by apply elem_of_nil in Hr.
  - rewrite fmap_cons in Hnd. apply NoDup_cons in Hnd as [Hx Hnd].
    apply elem_of_cons in Hr as [->|Hr], Hr' as [->|Hr']; auto.
    + exfalso. apply Hx. rewrite <- Hk. apply list_elem_of_fmap. by exists r'.
    + exfalso. apply Hx. rewrite Hk. apply list_elem_of_fmap. by exists r.
Qed.

Lemma map_completed_key rid b (rows : list A) :
  key <$> map_completed rid b rows = key <$> rows.
Proof.
  unfold map_completed. rewrite <- list_fmap_compose.
  apply list_fmap_ext. intros _ r _. simpl.
  case_decide; [apply with_completed_key|done].
Qed.

(** Writing [c] over an earlier write gives back the list in which every
    row with that id already had [c]. *)
Lemma map_completed_restore rid b c (rows : list A) :
  (∀ r, r ∈ rows → key r = rid → is_completed r = c) →
  map_completed rid c (map_completed rid b rows) = rows.
Proof.
  intros Hc. unfold map_completed. rewrite <- list_fmap_compose.
  rewrite <- (list_fmap_id rows) at 2.
  apply list_fmap_ext. intros i r Hr. simpl.
  destruct (decide (key r = rid)) as [Hk|Hk].
  - rewrite decide_True by (by rewrite with_completed_key).
    rewrite with_completed_twice, <- (Hc r); [apply with_completed_same| |done].
    apply list_elem_of_lookup. by exists i.
  - by rewrite decide_False.
Qed.

Lemma map_completed_elem rid b (rows : list A) (r : A) :
  r ∈ map_completed rid b rows → key r = rid → is_completed r = b.
Proof.
  unfold map_completed. intros Hr Hk.
  apply list_elem_of_fmap in Hr as (x & -> & _).
  case_decide as Hx; [apply is_completed_with|].
  contradiction.
Qed.

Lemma map_completed_revert (rows : list A) (r : A) :
  NoDup (key <$> rows) → r ∈ rows →
  map_completed (key r) (is_completed r)
    (map_completed (key r) (negb (is_completed r)) rows) = rows.
Proof.
  intros Hnd Hr. apply map_completed_restore. intros r' Hr' Hk.
  by rewrite (key_unique rows r r').
Qed.

Lemma map_completed_twice (rows : list A) (r r1 : A) :
  NoDup (key <$> rows) → r ∈ rows →
  r1 ∈ map_completed (key r) (negb (is_completed r)) rows → key r1 = key r →
  map_completed (key r1) (negb (is_completed r1))
    (map_completed (key r) (negb (is_completed r)) rows) = rows.
Proof.
  intros Hnd Hr Hr1 Hk.
  rewrite (map_completed_elem _ _ _ _ Hr1 Hk), negb_involutive, Hk.
  by apply map_completed_revert.
Qed.
End map_completed_facts.

(** ** Optimistic toggle: failure and double toggle *)

(** A checkbox calls the toggle with the id and the flag of the record it
    shows, which is a record of the local list. *)
Lemma checkbox_toggles_shown_value (i : nat) :
  (∀ st t, TodayView.tasks st !! i = Some t →
     t ∈ TodayView.tasks st
     ∧ TodayView.onCheckedChange i st
       = TodayView.toggleTask (Task.id t) (Task.completed t))
  ∧ (∀ st g, GoalsView.filteredGoals st !! i = Some g →
       g ∈ GoalsView.goals st
       ∧ GoalsView.onCheckedChange i st
         = GoalsView.toggleGoal (Goal.id g) (Goal.completed g))
  ∧ (∀ st m, MilestonesView.milestones st !! i = Some m →
       m ∈ MilestonesView.milestones st
       ∧ MilestonesView.onCheckedChange i st
         = MilestonesView.toggleMilestone (Milestone.id m) (Milestone.completed m)).
Proof.
  split; [|split].
  - intros st t Ht. split; [apply list_elem_of_lookup; by exists i|].
    unfold TodayView.onCheckedChange. by rewrite Ht.
  - intros st g Hg. split.
    + assert (g ∈ GoalsView.filteredGoals st) as Hin
        by (apply list_elem_of_lookup; by exists i).
      by apply list_elem_of_filter in Hin as [_ ?].
    + unfold GoalsView.onCheckedChange. by rewrite Hg.
  - intros st m Hm. split; [apply list_elem_of_lookup; by exists i|].
    unfold MilestonesView.onCheckedChange. by rewrite Hm.
Qed.

Lemma TodayView_setTasks_back (st : TodayView.State) f g :
  f (g (TodayView.tasks st)) = TodayView.tasks st →
  TodayView.setTasks f (TodayView.setTasks g st) = st.
Proof. destruct st; unfold TodayView.setTasks; simpl. by intros ->. Qed.

Lemma GoalsView_setGoals_back (st : GoalsView.State) f g :
  f (g (GoalsView.goals st)) = GoalsView.goals st →
  GoalsView.setGoals f (GoalsView.setGoals g st) = st.
Proof. destruct st; unfold GoalsView.setGoals; simpl. by intros ->. Qed.

Lemma MilestonesView_setMilestones_back (st : MilestonesView.State) f g :
  f (g (MilestonesView.milestones st)) = MilestonesView.milestones st →
  MilestonesView.setMilestones f (MilestonesView.setMilestones g st) = st.
Proof. destruct st; unfold MilestonesView.setMilestones; simpl. by intros ->. Qed.

Ltac await_reply srv :=
  match goal with
  | |- context [srv ?R ?req ?s] =>
      let reply := fresh "reply" in
      let s' := fresh "s" in
      let E := fresh "E" in
      destruct (srv R req s) as [reply s'] eqn:E; simpl in *
  end.

(** C2. A record of the local list is toggled from the value it shows,
    and the update comes back with an error: once the handler has run, the
    whole local state, and so the record's [completed], is what it was
    before the toggle. The function has played its sound, issued the one
    update and shown the error; it has issued no read. This holds for
    [toggleTask], [toggleGoal] and [toggleMilestone], whatever backend
    produced the error. *)
Theorem failed_toggle_reverts {S : Type}
    (srv : ∀ R, Request R → S → Reply R * S) (s : S) :
  (∀ (st : TodayView.State) (t : Task.t),
     NoDup (Task.id <$> TodayView.tasks st) → t ∈ TodayView.tasks st →
     is_Some (error (srv _ (UpdateTaskCompleted (Task.id t)
                                                (negb (Task.completed t))) s).1) →
     let r := exec srv (TodayView.toggleTask (Task.id t) (Task.completed t)) st s in
     r.1.1 = st
     ∧ r.2 = [Performed (if negb (Task.completed t)
                         then sounds_complete else sounds_toggle);
              Issued (UpdateTaskCompleted (Task.id t) (negb (Task.completed t)));
              Performed (toast_error "Failed to update task")]
     ∧ Forall (λ a, is_fetch a = false) r.2)
  ∧ (∀ (st : GoalsView.State) (g : Goal.t),
       NoDup (Goal.id <$> GoalsView.goals st) → g ∈ GoalsView.goals st →
       is_Some (error (srv _ (UpdateGoalCompleted (Goal.id g)
                                                  (negb (Goal.completed g))) s).1) →
       let r := exec srv (GoalsView.toggleGoal (Goal.id g) (Goal.completed g)) st s in
       r.1.1 = st
       ∧ r.2 = [Performed (if negb (Goal.completed g)
                           then sounds_complete else sounds_toggle);
                Issued (UpdateGoalCompleted (Goal.id g) (negb (Goal.completed g)));
                Performed (toast_error "Failed to update goal")]
       ∧ Forall (λ a, is_fetch a = false) r.2)
  ∧ (∀ (st : MilestonesView.State) (m : Milestone.t),
       NoDup (Milestone.id <$> MilestonesView.milestones st) →
       m ∈ MilestonesView.milestones st →
       is_Some (error (srv _ (UpdateMilestoneCompleted (Milestone.id m)
                                 (negb (Milestone.completed m))) s).1) →
       let r := exec srv (MilestonesView.toggleMilestone (Milestone.id m)
                            (Milestone.completed m)) st s in
       r.1.1 = st
       ∧ r.2 = [Performed (if negb (Milestone.completed m)
                           then sounds_complete else sounds_toggle);
                Issued (UpdateMilestoneCompleted (Milestone.id m)
                          (negb (Milestone.completed m)));
                Performed (toast_error "Failed to update milestone")]
       ∧ Forall (λ a, is_fetch a = false) r.2).
Proof.
  split; [|split].
  - intros st t Hnd Ht Herr r. subst r. simpl in *. await_reply srv.
    destruct Herr as [e ->]. simpl. split; [|split; [done|by repeat constructor]].
    apply TodayView_setTasks_back.
    exact (map_completed_revert (A:=Task.t) _ t Hnd Ht).
  - intros st g Hnd Hg Herr r. subst r. simpl in *. await_reply srv.
    destruct Herr as [e ->]. simpl. split; [|split; [done|by repeat constructor]].
    apply GoalsView_setGoals_back.
    exact (map_completed_revert (A:=Goal.t) _ g Hnd Hg).
  - intros st m Hnd Hm Herr r. subst r. simpl in *. await_reply srv.
    destruct Herr as [e ->]. simpl. split; [|split; [done|by repeat constructor]].
    apply MilestonesView_setMilestones_back.
    exact (map_completed_revert (A:=Milestone.t) _ m Hnd Hm).
Qed.

(** C3. A record is toggled from the value it shows and the update
    succeeds; then the record, as it now stands in the local list, is
    toggled again and that update succeeds too. The local state, and so
    the record's [completed], is back to what it was at the start. *)
Theorem double_toggle_restores {S : Type}
    (srv : ∀ R, Request R → S → Reply R * S) (s : S) :
  (∀ (st : TodayView.State) (t t1 : Task.t),
     NoDup (Task.id <$> TodayView.tasks st) → t ∈ TodayView.tasks st →
     let r1 := exec srv (TodayView.toggleTask (Task.id t) (Task.completed t)) st s in
     error (srv _ (UpdateTaskCompleted (Task.id t) (negb (Task.completed t))) s).1
       = None →
     t1 ∈ TodayView.tasks r1.1.1 → Task.id t1 = Task.id t →
     error (srv _ (UpdateTaskCompleted (Task.id t1) (negb (Task.completed t1)))
                r1.1.2).1 = None →
     Task.completed t1 = negb (Task.completed t)
     ∧ (exec srv (TodayView.toggleTask (Task.id t1) (Task.completed t1))
             r1.1.1 r1.1.2).1.1 = st)
  ∧ (∀ (st : GoalsView.State) (g g1 : Goal.t),
       NoDup (Goal.id <$> GoalsView.goals st) → g ∈ GoalsView.goals st →
       let r1 := exec srv (GoalsView.toggleGoal (Goal.id g) (Goal.completed g)) st s in
       error (srv _ (UpdateGoalCompleted (Goal.id g) (negb (Goal.completed g))) s).1
         = None →
       g1 ∈ GoalsView.goals r1.1.1 → Goal.id g1 = Goal.id g →
       error (srv _ (UpdateGoalCompleted (Goal.id g1) (negb (Goal.completed g1)))
                  r1.1.2).1 = None →
       Goal.completed g1 = negb (Goal.completed g)
       ∧ (exec srv (GoalsView.toggleGoal (Goal.id g1) (Goal.completed g1))
               r1.1.1 r1.1.2).1.1 = st)
  ∧ (∀ (st : MilestonesView.State) (m m1 : Milestone.t),
       NoDup (Milestone.id <$> MilestonesView.milestones st) →
       m ∈ MilestonesView.milestones st →
       let r1 := exec srv (MilestonesView.toggleMilestone (Milestone.id m)
                             (Milestone.completed m)) st s in
       error (srv _ (UpdateMilestoneCompleted (Milestone.id m)
                        (negb (Milestone.completed m))) s).1 = None →
       m1 ∈ MilestonesView.milestones r1.1.1 → Milestone.id m1 = Milestone.id m →
       error (srv _ (UpdateMilestoneCompleted (Milestone.id m1)
                        (negb (Milestone.completed m1))) r1.1.2).1 = None →
       Milestone.completed m1 = negb (Milestone.completed m)
       ∧ (exec srv (MilestonesView.toggleMilestone (Milestone.id m1)
                      (Milestone.completed m1)) r1.1.1 r1.1.2).1.1 = st).
Proof.
  split; [|split].
  - intros st t t1 Hnd Ht r1. subst r1. simpl.
    destruct (srv _ (UpdateTaskCompleted (Task.id t) _) s) as [reply s1]. simpl.
    intros ->. simpl. intros Ht1 Hk.
    pose proof (map_completed_elem (A:=Task.t) _ _ _ t1 Ht1 Hk) as Hc.
    destruct (srv _ (UpdateTaskCompleted (Task.id t1) _) s1) as [reply' s2]. simpl.
    intros ->. simpl. split; [exact Hc|].
    apply TodayView_setTasks_back.
    exact (map_completed_twice (A:=Task.t) _ t t1 Hnd Ht Ht1 Hk).
  - intros st g g1 Hnd Hg r1. subst r1. simpl.
    destruct (srv _ (UpdateGoalCompleted (Goal.id g) _) s) as [reply s1]. simpl.
    intros ->. simpl. intros Hg1 Hk.
    pose proof (map_completed_elem (A:=Goal.t) _ _ _ g1 Hg1 Hk) as Hc.
    destruct (srv _ (UpdateGoalCompleted (Goal.id g1) _) s1) as [reply' s2]. simpl.
    intros ->. simpl. split; [exact Hc|].
    apply GoalsView_setGoals_back.
    exact (map_completed_twice (A:=Goal.t) _ g g1 Hnd Hg Hg1 Hk).
  - intros st m m1 Hnd Hm r1. subst r1. simpl.
    destruct (srv _ (UpdateMilestoneCompleted (Milestone.id m) _) s) as [reply s1].
    simpl. intros ->. simpl. intros Hm1 Hk.
    pose proof (map_completed_elem (A:=Milestone.t) _ _ _ m1 Hm1 Hk) as Hc.
    destruct (srv _ (UpdateMilestoneCompleted (Milestone.id m1) _) s1)
      as [reply' s2]. simpl.
    intros ->. simpl. split; [exact Hc|].
    apply MilestonesView_setMilestones_back.
    exact (map_completed_twice (A:=Milestone.t) _ m m1 Hnd Hm Hm1 Hk).
Qed.

(** ** What the Add-Item modal inserts *)

Lemma exec_submit_inserted {S : Type} (srv : ∀ R, Request R → S → Reply R * S)
    (user : option uuid) (req : uuid → Request unit) (failed succeeded : string)
    (st : AddItemModal.State) (s : S) :
  omap inserted (exec srv (AddItemModal.submit user req failed succeeded) st s).2
  = match user with
    | Some uid => omap inserted [Issued (req uid)]
    | None => []
    end.
Proof.
  destruct user as [uid|]; [|done]. simpl.
  destruct (srv _ (req uid) s) as [reply s1]. simpl.
  destruct (error reply); simpl; by destruct (inserted (Issued (req uid))).
Qed.

(** Every insert a submission issues carries one of the four payloads the
    handlers build, with [today] the day of the render the handler came
    from. *)
Lemma run_inserted {S : Type} (srv : ∀ R, Request R → S → Reply R * S)
    (user : option uuid) (events : list AddItemModal.Event) :
  ∀ (rendered : date) (st : AddItemModal.State) (s : S)
    (sub : AddItemModal.Submission) (tbl : string) (p : gmap string jsval),
    sub ∈ AddItemModal.run srv user rendered st s events →
    (tbl, p) ∈ omap inserted (AddItemModal.did sub) →
    ∃ uid formData,
      user = Some uid
      ∧ ((tbl, p) = ("tasks", AddItemModal.task_payload uid
                                (AddItemModal.rendered_on sub) formData)
         ∨ (tbl, p) = ("time_blocks", AddItemModal.time_block_payload uid
                                        (AddItemModal.rendered_on sub) formData)
         ∨ (tbl, p) = ("goals", AddItemModal.goal_payload uid formData)
         ∨ (tbl, p) = ("milestones", AddItemModal.milestone_payload uid formData)).
Proof.
  induction events as [|[clock|clock form formData] events IH];
    intros rendered st s sub tbl p Hsub Hp; simpl in Hsub.
  - by apply elem_of_nil in Hsub.
  - by eapply IH.
  - destruct (exec srv _ st s) as [[st' s'] tr] eqn:E.
    apply elem_of_cons in Hsub as [->|Hsub]; [|by eapply IH].
    simpl in Hp. assert (tr = (exec srv
      (AddItemModal.handler (AddItemModal.render user rendered) form formData)
      st s).2) as -> by (by rewrite E).
    destruct form; simpl in Hp; unfold AddItemModal.handleAddTask,
      AddItemModal.handleAddTimeBlock, AddItemModal.handleAddGoal,
      AddItemModal.handleAddMilestone in Hp;
      rewrite exec_submit_inserted in Hp;
      (destruct user as [uid|]; [|by apply elem_of_nil in Hp]);
      simpl in Hp; apply list_elem_of_singleton in Hp;
      exists uid, formData; split; auto.
Qed.

(** C9. Over any sequence of renders and submissions of the Add-Item
    modal, every insert it issues into [milestones] has a payload without
    the key [goal_id]; and a row the store creates from a payload without
    that key has a NULL goal reference. No form input changes this. *)
Theorem modal_milestones_have_no_goal {S : Type}
    (srv : ∀ R, Request R → S → Reply R * S) (user : option uuid) (clock : date)
    (s : S) (events : list AddItemModal.Event) :
  (∀ sub p, sub ∈ AddItemModal.session srv user clock s events →
            ("milestones", p) ∈ omap inserted (AddItemModal.did sub) →
            p !! "goal_id" = None)
  ∧ (∀ env p db db', p !! "goal_id" = None →
       insert_milestone env p db = Ok db' →
       ∃ m, milestones db' = milestones db ++ [m] ∧ Milestone.goal_id m = None).
Proof.
  split.
  - intros sub p Hsub Hp.
    destruct (run_inserted srv user events _ _ _ _ _ _ Hsub Hp)
      as (uid & formData & _ & [H|[H|[H|H]]]); try discriminate H.
    injection H as ->. reflexivity.
  - intros env p db db' Hnone H. unfold insert_milestone in H. invert_write H.
    injection H as <-. eexists. split; [reflexivity|]. simpl.
    unfold nullable in E0. rewrite Hnone in E0. by injection E0 as <-.
Qed.

(** C10, as stated, fails. The dialog is rendered on 2025-01-01 and the
    task form is submitted on 2025-01-02 with no render in between: the
    insert carries the day of the render, not the day of the submission. *)
Lemma submission_after_midnight_keeps_render_day :
  let subs := AddItemModal.session (@unreachable unit) (Some alice) "2025-01-01" ()
                [AddItemModal.Submitted "2025-01-02" AddItemModal.TaskForm task_form] in
  ∃ sub p,
    sub ∈ subs
    ∧ ("tasks", p) ∈ omap inserted (AddItemModal.did sub)
    ∧ AddItemModal.submitted_on sub = "2025-01-02"
    ∧ p !! "task_date" = Some (JStr "2025-01-01")
    ∧ p !! "task_date" ≠ Some (JStr (AddItemModal.submitted_on sub)).
Proof.
  simpl. eexists _, _. split; [apply list_elem_of_singleton; reflexivity|].
  simpl. split; [apply list_elem_of_singleton; reflexivity|].
  split; [reflexivity|]. split; [reflexivity|]. discriminate.
Qed.

(** C10, amended. Over any sequence of renders and submissions of the
    Add-Item modal, every insert it issues into [tasks] carries as
    [task_date], and every insert into [time_blocks] as [block_date], the
    day of the latest render before the submission; no form input changes
    it. When the submission happens on the day of that render, this is
    the day of the submission. *)
Theorem modal_dates_are_render_day {S : Type}
    (srv : ∀ R, Request R → S → Reply R * S) (user : option uuid) (clock : date)
    (s : S) (events : list AddItemModal.Event) :
  ∀ sub p,
    sub ∈ AddItemModal.session srv user clock s events →
    (("tasks", p) ∈ omap inserted (AddItemModal.did sub) →
     p !! "task_date" = Some (JStr (AddItemModal.rendered_on sub))
     ∧ (AddItemModal.rendered_on sub = AddItemModal.submitted_on sub →
        p !! "task_date" = Some (JStr (AddItemModal.submitted_on sub))))
    ∧ (("time_blocks", p) ∈ omap inserted (AddItemModal.did sub) →
       p !! "block_date" = Some (JStr (AddItemModal.rendered_on sub))
       ∧ (AddItemModal.rendered_on sub = AddItemModal.submitted_on sub →
          p !! "block_date" = Some (JStr (AddItemModal.submitted_on sub)))).
Proof.
  intros sub p Hsub. split; intros Hp;
    destruct (run_inserted srv user events _ _ _ _ _ _ Hsub Hp)
      as (uid & formData & _ & [H|[H|[H|H]]]); try discriminate H;
    injection H as ->; (split; [reflexivity|]); by intros <-.
Qed.

(** The first submission of a session runs the handlers of the mounting
    render. *)
Lemma first_submission_rendered_on {S : Type}
    (srv : ∀ R, Request R → S → Reply R * S) (user : option uuid)
    (clock day : date) (s : S) form formData events :
  AddItemModal.rendered_on <$>
    head (AddItemModal.session srv user clock s
            (AddItemModal.Submitted day form formData :: events))
  = Some clock.
Proof.
  unfold AddItemModal.session. simpl.
  by destruct (exec srv _ AddItemModal.initial s) as [[st' s'] tr].
Qed.

(** The store keeps the date it is given. *)
Lemma insert_time_block_date (env : Env) (p : gmap string jsval) (db db' : Store) :
  insert_time_block env p db = Ok db' →
  ∃ b, time_blocks db' = time_blocks db ++ [b]
       ∧ p !! "block_date" = Some (JStr (TimeBlock.block_date b)).
Proof.
  intros H. unfold insert_time_block in H. invert_write H.
  apply not_null_Ok in E1. injection H as <-. by eexists.
Qed.

(** ** Teardown and late replies *)

Section teardown_facts.
Context {St : Type}.

Lemma removeChannel_keeps (name : string) (rt : Runtime St) :
  state (removeChannel name rt) = state rt
  ∧ inflight (removeChannel name rt) = inflight rt
  ∧ actions (removeChannel name rt) = actions rt.
Proof. done. Qed.

Lemma removeChannel_gone (name : string) (rt : Runtime St) (ch : Channel St) :
  ch ∈ channels (removeChannel name rt) ↔
    channel_name ch ≠ name ∧ ch ∈ channels rt.
Proof. unfold removeChannel. simpl. by rewrite list_elem_of_filter. Qed.

(** A notification that no channel listens to changes nothing. *)
Lemma notify_no_channel (tbl : string) (uid : uuid) (rt : Runtime St) :
  channels rt = [] → notify tbl uid rt = rt.
Proof. unfold notify. by intros ->. Qed.

Lemma start_inflight (p : Prog St) (rt : Runtime St) :
  inflight (start p rt) = inflight rt ++ option_list (suspended p).
Proof.
  revert rt. induction p as [|f k IH|e k IH|R req k _]; intros rt; simpl.
  - by rewrite app_nil_r.
  - by rewrite IH.
  - by rewrite IH.
  - done.
Qed.

Lemma settle_pending (i : nat) (answer : ∀ R, Request R → Reply R)
    (rt : Runtime St) (p : Pending St) :
  inflight rt !! i = Some p →
  settle i answer rt
  = start (resume p (answer _ (request p)))
          (mkRuntime (state rt) (mounted rt) (delete i (inflight rt))
                     (channels rt) (actions rt)).
Proof. unfold settle. by intros ->. Qed.

(** What runs on an instance that has been unmounted leaves its state
    alone, and the instance unmounted. *)
Lemma start_unmounted (p : Prog St) (rt : Runtime St) :
  mounted rt = false →
  state (start p rt) = state rt ∧ mounted (start p rt) = false.
Proof.
  revert rt. induction p as [|f k IH|e k IH|R req k _]; intros rt Hm; simpl.
  - done.
  - rewrite Hm. exact (IH (mkRuntime _ _ _ _ _) eq_refl).
  - exact (IH (mkRuntime _ _ _ _ _) Hm).
  - done.
Qed.

Lemma settle_unmounted (i : nat) (answer : ∀ R, Request R → Reply R)
    (rt : Runtime St) :
  mounted rt = false →
  state (settle i answer rt) = state rt ∧ mounted (settle i answer rt) = false.
Proof.
  intros Hm. unfold settle. destruct (inflight rt !! i) as [p|]; [|done].
  exact (start_unmounted _ (mkRuntime _ _ _ _ _) Hm).
Qed.

Lemma settle_all_unmounted (late : list (nat * (∀ R, Request R → Reply R)))
    (rt : Runtime St) :
  mounted rt = false →
  state (settle_all late rt) = state rt ∧ mounted (settle_all late rt) = false.
Proof.
  revert rt. induction late as [|a late IH]; intros rt Hm; [done|]. simpl.
  destruct (settle_unmounted a.1 a.2 rt Hm) as [Hs Hm'].
  destruct (IH _ Hm') as [Hs' Hm'']. split; [congruence|done].
Qed.
End teardown_facts.

(** TodayView is mounted for a signed-in user while its first read of
    the day's tasks is in flight. Resolved on the mounted instance, the
    read puts the store's rows in the list. Resolved after the instance
    has been unmounted, it leaves the list as it was at teardown, although
    the read was still in flight then. *)
Lemma late_reply_after_unmount_is_dropped :
  let rt := mount TodayView.initial (TodayView.effect (Some alice) "2025-01-01") in
  let rt' := unmount (TodayView.cleanup (Some alice)) rt in
  let answer := answers_of alice_env sample_store in
  TodayView.tasks (state (settle 0 answer rt)) = [report; review]
  ∧ inflight rt' !! 0%nat = suspended (TodayView.fetchTasks alice "2025-01-01")
  ∧ length (inflight (settle 0 answer rt')) = 1%nat
  ∧ TodayView.tasks (state (settle 0 answer rt')) = [].
Proof. repeat split; reflexivity. Qed.

(** A cleanup that is not an unmount is another matter. The view stays on
    screen, the effect is torn down and run again because the day changed,
    and the read issued for the old day resolves after the one for the
    new day: its rows are put in the list. *)
Lemma stale_reply_after_day_change_is_applied :
  let rt0 := mount TodayView.initial (TodayView.effect (Some alice) "2025-01-01") in
  let rt1 := TodayView.rerender (Some alice) "2025-01-01" (Some alice) "2025-01-02"
               rt0 in
  let answer := answers_of alice_env sample_store in
  inflight rt1 !! 0%nat = suspended (TodayView.fetchTasks alice "2025-01-01")
  ∧ inflight rt1 !! 2%nat = suspended (TodayView.fetchTasks alice "2025-01-02")
  ∧ TodayView.tasks (state (settle 1 answer rt1)) = []
  ∧ TodayView.tasks (state (settle 0 answer (settle 1 answer rt1)))
    = [report; review].
Proof. repeat split; reflexivity. Qed.

(** C7. Unmounting a view runs the cleanup of its effect and takes the
    instance off the screen. The reads in flight at that moment are not
    cancelled: they stay in flight. Whichever of them resolve afterwards,
    in whatever order and with whatever reply, the state of the view, its
    lists with it, stays what it was at teardown. *)
Theorem late_replies_after_unmount_are_discarded (user : option uuid)
    (late : list (nat * (∀ R, Request R → Reply R))) :
  (∀ rt : Runtime TodayView.State,
     let rt' := unmount (TodayView.cleanup user) rt in
     inflight rt' = inflight rt
     ∧ state (settle_all late rt') = state rt
     ∧ TodayView.tasks (state (settle_all late rt')) = TodayView.tasks (state rt)
     ∧ TodayView.timeBlocks (state (settle_all late rt'))
       = TodayView.timeBlocks (state rt))
  ∧ (∀ rt : Runtime GoalsView.State,
       let rt' := unmount (GoalsView.cleanup user) rt in
       inflight rt' = inflight rt
       ∧ state (settle_all late rt') = state rt
       ∧ GoalsView.goals (state (settle_all late rt')) = GoalsView.goals (state rt))
  ∧ (∀ rt : Runtime MilestonesView.State,
       let rt' := unmount (MilestonesView.cleanup user) rt in
       inflight rt' = inflight rt
       ∧ state (settle_all late rt') = state rt
       ∧ MilestonesView.milestones (state (settle_all late rt'))
         = MilestonesView.milestones (state rt)).
Proof.
  split; [|split]; intros rt rt'.
  - assert (state (settle_all late rt') = state rt) as Hst.
    { rewrite (proj1 (settle_all_unmounted late rt' eq_refl)).
      subst rt'. by destruct user. }
    split; [subst rt'; by destruct user|]. by rewrite Hst.
  - assert (state (settle_all late rt') = state rt) as Hst.
    { rewrite (proj1 (settle_all_unmounted late rt' eq_refl)).
      subst rt'. by destruct user. }
    split; [subst rt'; by destruct user|]. by rewrite Hst.
  - assert (state (settle_all late rt') = state rt) as Hst.
    { rewrite (proj1 (settle_all_unmounted late rt' eq_refl)).
      subst rt'. by destruct user. }
    split; [subst rt'; by destruct user|]. by rewrite Hst.
Qed.

(** ** Primary keys carry over to loaded lists *)

Lemma NoDup_key_select {A} `{Keyed A} (P : A → Prop) `{∀ x, Decision (P x)}
    (col : A → Z) (asc : bool) (rows : list A) :
  NoDup (key <$> rows) → NoDup (key <$> order col asc (filter P rows)).
Proof.
  intros Hnd. rewrite order_Permutation.
  eapply sublist_NoDup; [exact Hnd|]. apply fmap_sublist, sublist_filter.
Qed.

Lemma visible_NoDup {A} `{Keyed A, Owned A} (auth : uuid) (rows : list A) :
  NoDup (key <$> rows) → NoDup (key <$> visible auth rows).
Proof.
  intros Hnd. eapply sublist_NoDup; [exact Hnd|].
  apply fmap_sublist, sublist_filter.
Qed.

Lemma filter_NoDup {A} `{Keyed A} (P : A → Prop) `{∀ x, Decision (P x)}
    (rows : list A) :
  NoDup (key <$> rows) → NoDup (key <$> filter P rows).
Proof.
  intros Hnd. eapply sublist_NoDup; [exact Hnd|].
  apply fmap_sublist, sublist_filter.
Qed.

(** The lists the views hold after a load have no two rows with one id,
    as the tables do not. *)
Lemma loaded_lists_NoDup (auth uid : uuid) (d : date) (db : Store) :
  (NoDup (Task.id <$> tasks db) → NoDup (Task.id <$> select_tasks auth uid d db))
  ∧ (NoDup (Goal.id <$> goals db) → NoDup (Goal.id <$> select_goals auth uid db))
  ∧ (NoDup (Milestone.id <$> milestones db) →
     NoDup (Milestone.id <$> select_milestones auth uid db)).
Proof.
  split; [|split]; intros Hnd.
  - apply (NoDup_key_select (A:=Task.t)), (filter_NoDup (A:=Task.t)).
    by apply (visible_NoDup (A:=Task.t)).
  - apply (NoDup_key_select (A:=Goal.t)).
    by apply (visible_NoDup (A:=Goal.t)).
  - apply (NoDup_key_select (A:=Milestone.t)).
    by apply (visible_NoDup (A:=Milestone.t)).
Qed.

(** ** The failure handler under interleaving

    Whatever happened to the list of a mounted view between the toggle
    and the error reply (a re-fetch, another toggle), the handler writes the value the toggle
    was called with over every record with that id. *)
Lemma failed_toggleTask_settles (rt : Runtime TodayView.State) (i : nat)
    (answer : ∀ R, Request R → Reply R) (taskId : uuid) (currentStatus : bool) :
  mounted rt = true →
  inflight rt !! i = suspended (TodayView.toggleTask taskId currentStatus) →
  is_Some (error (answer _ (UpdateTaskCompleted taskId (negb currentStatus)))) →
  ∀ t, t ∈ TodayView.tasks (state (settle i answer rt)) → Task.id t = taskId →
       Task.completed t = currentStatus.
Proof.
  intros Hm Hp [e He] t Ht Hk. simpl in Hp.
  rewrite (settle_pending _ _ _ _ Hp) in Ht. simpl in Ht. rewrite He in Ht.
  simpl in Ht. rewrite Hm in Ht. exact (map_completed_elem (A:=Task.t) _ _ _ t Ht Hk).
Qed.

(** The schema does let a milestone reference a goal; only the dialog
    never sends one. *)
Lemma schema_permits_goal_reference :
  ∃ db' m,
    insert_milestone alice_env
      (<["goal_id" := JStr "g1"]> (AddItemModal.milestone_payload alice milestone_form))
      sample_store = Ok db'
    ∧ milestones db' = milestones sample_store ++ [m]
    ∧ Milestone.goal_id m = Some "g1".
Proof. eexists _, _. split; [reflexivity|]. split; reflexivity. Qed.

(** ** Re-fetching after a toggle

    A write that leaves the filtered columns and the sort key of every row
    alone commutes with the read. *)

Section merge_sort_fmap.
Context {A : Type} (R : relation A) `{∀ x y, Decision (R x y)} (f : A → A).
Hypothesis f_mono : ∀ a b, R (f a) (f b) ↔ R a b.

Lemma list_merge_fmap (l1 l2 : list A) :
  list_merge R (f <$> l1) (f <$> l2) = f <$> list_merge R l1 l2.
Proof.
  revert l2. induction l1 as [|x1 l1 IH1]; intros l2.
  - by rewrite fmap_nil, !list_merge_nil_l.
  - induction l2 as [|x2 l2 IH2].
    + by rewrite fmap_nil, !list_merge_nil_r.
    + rewrite !fmap_cons, !list_merge_cons.
      destruct (decide (R x1 x2)) as [Hr|Hr].
      * rewrite decide_True by (by apply f_mono).
        rewrite fmap_cons. f_equal. rewrite <- IH1. by rewrite fmap_cons.
      * rewrite decide_False by (by rewrite f_mono).
        rewrite fmap_cons. f_equal. rewrite <- IH2. by rewrite fmap_cons.
Qed.

Lemma merge_list_to_stack_fmap (st : list (option (list A))) (l : list A) :
  merge_list_to_stack R (stack_fmap f st) (f <$> l)
  = stack_fmap f (merge_list_to_stack R st l).
Proof.
  revert l. induction st as [|[l'|] st IH]; intros l; simpl; try done.
  f_equal. rewrite list_merge_fmap. apply IH.
Qed.

Lemma merge_stack_fmap (st : list (option (list A))) :
  merge_stack R (stack_fmap f st) = f <$> merge_stack R st.
Proof.
  induction st as [|[l|] st IH]; simpl; try done.
  by rewrite IH, list_merge_fmap.
Qed.

Lemma merge_sort_aux_fmap (st : list (option (list A))) (l : list A) :
  merge_sort_aux R (stack_fmap f st) (f <$> l) = f <$> merge_sort_aux R st l.
Proof.
  revert st. induction l as [|x l IH]; intros st; simpl.
  - apply merge_stack_fmap.
  - rewrite <- IH. f_equal. apply (merge_list_to_stack_fmap st [x]).
Qed.

Lemma merge_sort_fmap (l : list A) :
  merge_sort R (f <$> l) = f <$> merge_sort R l.
Proof. exact (merge_sort_aux_fmap [] l). Qed.
End merge_sort_fmap.

Lemma order_fmap {A} (col : A → Z) (asc : bool) (f : A → A) (rows : list A) :
  (∀ r, col (f r) = col r) → order col asc (f <$> rows) = f <$> order col asc rows.
Proof.
  intros Hcol. apply merge_sort_fmap. intros a b. unfold precedes.
  by rewrite !Hcol.
Qed.

Lemma filter_fmap_same {A} (P : A → Prop) `{∀ x, Decision (P x)} (f : A → A)
    (rows : list A) :
  (∀ r, P (f r) ↔ P r) → filter P (f <$> rows) = f <$> filter P rows.
Proof.
  intros HP. induction rows as [|r rows IH]; [done|].
  rewrite fmap_cons, !filter_cons.
  destruct (decide (P r)) as [Hr|Hr].
  - rewrite decide_True by (by apply HP). by rewrite fmap_cons, IH.
  - rewrite decide_False by (by rewrite HP). exact IH.
Qed.

(** The day's list read after a toggle is the list read before it, with
    the same write applied. *)
Lemma select_tasks_after_update (env : Env) (auth uid : uuid) (d : date)
    (rid : uuid) (b : bool) (db : Store) :
  select_tasks auth uid d (set_tasks (update_completed Task_touch env rid b) db)
  = update_completed Task_touch env rid b (select_tasks auth uid d db).
Proof.
  unfold select_tasks, visible, update_completed. simpl.
  rewrite !filter_fmap_same, order_fmap; [done|..];
    intros r; case_decide; done.
Qed.

Lemma exec_toggleTask_serve (env : Env) (taskId : uuid) (currentStatus : bool)
    (st : TodayView.State) (db : Store) :
  exec (@serve env) (TodayView.toggleTask taskId currentStatus) st db
  = (TodayView.setTasks (map_completed taskId (negb currentStatus)) st,
     set_tasks (update_completed Task_touch env taskId (negb currentStatus)) db,
     [Performed (if negb currentStatus then sounds_complete else sounds_toggle);
      Issued (UpdateTaskCompleted taskId (negb currentStatus))]).
Proof. reflexivity. Qed.

(** The double toggle with the re-fetch that the change notification
    triggers after each successful update: the list starts in sync with
    the store, and each toggle is followed by a fresh read. The list ends
    with the records it started with, each with the flag it started with. *)
Lemma double_toggle_with_refetch (env1 env2 : Env) (uid : uuid) (d : date)
    (db : Store) (t t1 : Task.t) :
  auth_uid env1 = uid → auth_uid env2 = uid →
  NoDup (Task.id <$> tasks db) →
  let st0 := TodayView.mkState (select_tasks uid uid d db) [] in
  t ∈ TodayView.tasks st0 →
  let r1 := exec (@serve env1)
              (TodayView.toggleTask (Task.id t) (Task.completed t)) st0 db in
  let f1 := exec (@serve env1) (TodayView.fetchTasks uid d) r1.1.1 r1.1.2 in
  t1 ∈ TodayView.tasks f1.1.1 → Task.id t1 = Task.id t →
  let r2 := exec (@serve env2)
              (TodayView.toggleTask (Task.id t1) (Task.completed t1))
              f1.1.1 f1.1.2 in
  let f2 := exec (@serve env2) (TodayView.fetchTasks uid d) r2.1.1 r2.1.2 in
  Task.completed t1 = negb (Task.completed t)
  ∧ (λ r, (Task.id r, Task.completed r)) <$> TodayView.tasks f2.1.1
    ≡ₚ (λ r, (Task.id r, Task.completed r)) <$> TodayView.tasks st0.
Proof.
  intros Ha1 Ha2 Hnd st0 Ht r1 f1 Ht1 Hk r2 f2.
  assert (TodayView.tasks f1.1.1
          = update_completed Task_touch env1 (Task.id t) (negb (Task.completed t))
              (select_tasks uid uid d db)) as Hf1.
  { subst f1 r1. rewrite exec_toggleTask_serve, fetchTasks_loads.
    cbn [fst snd TodayView.tasks].
    by rewrite select_tasks_after_update, Ha1. }
  assert (∀ r, r ∈ select_tasks uid uid d db → Task.user_id r = uid) as Hown.
  { intros r Hr. unfold select_tasks in Hr. apply elem_of_order in Hr.
    by apply list_elem_of_filter in Hr as [_ [? _]%list_elem_of_filter]. }
  assert (NoDup (Task.id <$> select_tasks uid uid d db)) as HndS
    by (by apply loaded_lists_NoDup).
  assert (Task.completed t1 = negb (Task.completed t)) as Hc.
  { rewrite Hf1 in Ht1. unfold update_completed in Ht1.
    apply list_elem_of_fmap in Ht1 as (r & -> & Hr).
    rewrite Ha1 in Hk |- *. case_decide as Hcond; [done|].
    exfalso. apply Hcond. split; [by apply Hown|exact Hk]. }
  split; [exact Hc|].
  assert (TodayView.tasks f2.1.1
          = update_completed Task_touch env2 (Task.id t) (Task.completed t)
              (update_completed Task_touch env1 (Task.id t)
                 (negb (Task.completed t)) (select_tasks uid uid d db))) as ->.
  { subst f2 r2 f1 r1.
    repeat (progress (rewrite ?exec_toggleTask_serve, ?fetchTasks_loads;
                      cbn [fst snd TodayView.tasks])).
    rewrite Hk, Hc, negb_involutive.
    by rewrite !select_tasks_after_update, ?Ha1, ?Ha2. }
  subst st0. simpl in Ht |- *.
  unfold update_completed. rewrite Ha1, Ha2.
  rewrite <- !list_fmap_compose.
  apply reflexive_eq, list_fmap_ext. intros i r Hr. simpl.
  assert (r ∈ select_tasks uid uid d db) as Hin
    by (apply list_elem_of_lookup; by exists i).
  destruct (decide (owner r = uid ∧ key r = Task.id t)) as [[Ho Hid]|Hno].
  - rewrite decide_True by done. simpl.
    by rewrite (key_unique (A:=Task.t) _ t r HndS Ht Hin Hid).
  - by rewrite decide_False.
Qed.

(** ** The theorems at the sample data *)

Lemma failed_toggle_reverts_witness :
  (exec (@unreachable unit) (TodayView.toggleTask "t1" false) today_state ()).1.1
    = today_state
  ∧ (exec (@unreachable unit) (GoalsView.toggleGoal "g1" false) goals_state ()).1.1
    = goals_state
  ∧ (exec (@unreachable unit) (MilestonesView.toggleMilestone "m3" true)
       milestones_state ()).1.1 = milestones_state.
Proof.
  split; [|split].
  - apply (proj1 (failed_toggle_reverts (@unreachable unit) ()) today_state report);
      [compute_done | compute_done | by eexists].
  - apply (proj1 (proj2 (failed_toggle_reverts (@unreachable unit) ()))
             goals_state spanish);
      [compute_done | compute_done | by eexists].
  - apply (proj2 (proj2 (failed_toggle_reverts (@unreachable unit) ()))
             milestones_state passport);
      [compute_done | compute_done | by eexists].
Defined.

Lemma double_toggle_restores_witness :
  (exec (@serve alice_env)
        (TodayView.toggleTask "t1" true)
        (exec (@serve alice_env) (TodayView.toggleTask "t1" false) today_state
              sample_store).1.1
        (exec (@serve alice_env) (TodayView.toggleTask "t1" false) today_state
              sample_store).1.2).1.1 = today_state.
Proof.
  apply (proj1 (double_toggle_restores (@serve alice_env) sample_store)
           today_state report (Task_with_completed true report));
    [compute_done | compute_done | reflexivity | compute_done | reflexivity
    | reflexivity].
Defined.

Lemma delete_goal_cascades_witness :
  spanish ∈ goals sample_store
  ∧ auth_uid alice_env = Goal.user_id spanish
  ∧ milestones (delete_goal alice_env "g1" sample_store) = [ten_km; passport].
Proof.
  split; [compute_done|]. split; [reflexivity|].
  etrans; [|reflexivity].
  apply (delete_goal_cascades alice_env spanish sample_store);
    [compute_done|reflexivity].
Defined.


Lemma new_identity_gets_one_profile_witness :
  ∃ db' p,
    create_user 50 carol sample_store = Ok db'
    ∧ filter (λ q, Profile.id q = "ca201") (profiles db') = [p]
    ∧ Profile.full_name p = Some "Carol".
Proof.
  destruct (new_identity_gets_one_profile 50 carol sample_store)
    as (db' & p & Hok & _ & _ & _ & Hone & Hname & _).
  - unfold profiles_reference_users. simpl. intros p Hp.
    apply (Forall_forall (λ p, Profile.id p ∈ [alice; bob])
             (profiles sample_store)); [|exact Hp].
    compute_done.
  - compute_done.
  - exists db', p. split; [exact Hok|]. split; [exact Hone|]. by apply Hname.
Defined.

Lemma modal_milestones_have_no_goal_witness :
  let subs := AddItemModal.session (@serve alice_env) (Some alice) "2025-01-01"
                sample_store
                [AddItemModal.Submitted "2025-01-01" AddItemModal.MilestoneForm
                   milestone_form] in
  let p := AddItemModal.milestone_payload alice milestone_form in
  (∃ sub, sub ∈ subs ∧ ("milestones", p) ∈ omap inserted (AddItemModal.did sub))
  ∧ p !! "goal_id" = None
  ∧ ∃ db' m, insert_milestone alice_env p sample_store = Ok db'
             ∧ milestones db' = milestones sample_store ++ [m]
             ∧ Milestone.goal_id m = None.
Proof.
  pose proof (modal_milestones_have_no_goal (@serve alice_env) (Some alice)
                "2025-01-01" sample_store
                [AddItemModal.Submitted "2025-01-01" AddItemModal.MilestoneForm
                   milestone_form]) as [Hpayload Hrow].
  assert (AddItemModal.milestone_payload alice milestone_form !! "goal_id" = None)
    as Hnone.
  { eapply Hpayload; [left|]. apply list_elem_of_singleton. reflexivity. }
  split; [|split; [exact Hnone|]].
  - eexists. split; [left|]. apply list_elem_of_singleton. reflexivity.
  - eexists.
    destruct (Hrow alice_env (AddItemModal.milestone_payload alice milestone_form)
                sample_store _ Hnone eq_refl) as (m & Hm & Hg).
    exists m. split; [reflexivity|]. split; [exact Hm|exact Hg].
Defined.

Lemma modal_dates_are_render_day_witness :
  let subs := AddItemModal.session (@serve alice_env) (Some alice) "2025-01-01"
                sample_store
                [AddItemModal.Submitted "2025-01-01" AddItemModal.TaskForm task_form;
                 AddItemModal.Rendered "2025-01-02";
                 AddItemModal.Submitted "2025-01-02" AddItemModal.TimeBlockForm
                   block_form] in
  AddItemModal.task_payload alice "2025-01-01" task_form !! "task_date"
    = Some (JStr "2025-01-01")
  ∧ AddItemModal.time_block_payload alice "2025-01-02" block_form !! "block_date"
    = Some (JStr "2025-01-02").
Proof.
  pose proof (modal_dates_are_render_day (@serve alice_env) (Some alice)
                "2025-01-01" sample_store
                [AddItemModal.Submitted "2025-01-01" AddItemModal.TaskForm task_form;
                 AddItemModal.Rendered "2025-01-02";
                 AddItemModal.Submitted "2025-01-02" AddItemModal.TimeBlockForm
                   block_form]) as H.
  split.
  - refine (proj1 (proj1 (H (AddItemModal.mkSubmission "2025-01-01" "2025-01-01" _)
                            _ _) _)).
    + left.
    + apply list_elem_of_singleton. reflexivity.
  - refine (proj1 (proj2 (H (AddItemModal.mkSubmission "2025-01-02" "2025-01-02" _)
                            _ _) _)).
    + right. left.
    + apply list_elem_of_singleton. reflexivity.
Defined.

(** * Further properties *)

(** ** What a successful insert appends *)

Lemma insert_task_Ok (env : Env) (p : gmap string jsval) (db db' : Store) :
  insert_task env p db = Ok db' →
  ∃ t, db' = set_tasks (λ rows, (rows ++ [t])) db
       ∧ Task.id t = gen_random_uuid env
       ∧ Task.user_id t = auth_uid env
       ∧ p !! "user_id" = Some (JStr (auth_uid env))
       ∧ (gen_random_uuid env ∉ Task.id <$> tasks db)
       ∧ user_exists (auth_uid env) db.
Proof.
  intros H. unfold insert_task in H. invert_write H.
  apply insert_checks_Ok in E as (_ & Hu & Hex & <- & Hfresh).
  injection H as <-. by eexists.
Qed.

Lemma insert_time_block_Ok (env : Env) (p : gmap string jsval) (db db' : Store) :
  insert_time_block env p db = Ok db' →
  ∃ b, db' = set_time_blocks (λ rows, (rows ++ [b])) db
       ∧ TimeBlock.id b = gen_random_uuid env
       ∧ TimeBlock.user_id b = auth_uid env
       ∧ p !! "user_id" = Some (JStr (auth_uid env))
       ∧ (gen_random_uuid env ∉ TimeBlock.id <$> time_blocks db)
       ∧ user_exists (auth_uid env) db.
Proof.
  intros H. unfold insert_time_block in H. invert_write H.
  apply insert_checks_Ok in E as (_ & Hu & Hex & <- & Hfresh).
  injection H as <-. by eexists.
Qed.

Lemma insert_goal_Ok (env : Env) (p : gmap string jsval) (db db' : Store) :
  insert_goal env p db = Ok db' →
  ∃ g, db' = set_goals (λ rows, (rows ++ [g])) db
       ∧ Goal.id g = gen_random_uuid env
       ∧ Goal.user_id g = auth_uid env
       ∧ p !! "user_id" = Some (JStr (auth_uid env))
       ∧ (gen_random_uuid env ∉ Goal.id <$> goals db)
       ∧ user_exists (auth_uid env) db.
Proof.
  intros H. unfold insert_goal in H. invert_write H.
  apply insert_checks_Ok in E as (_ & Hu & Hex & <- & Hfresh).
  injection H as <-. by eexists.
Qed.

Lemma insert_milestone_Ok (env : Env) (p : gmap string jsval) (db db' : Store) :
  insert_milestone env p db = Ok db' →
  ∃ m, db' = set_milestones (λ rows, (rows ++ [m])) db
       ∧ Milestone.id m = gen_random_uuid env
       ∧ Milestone.user_id m = auth_uid env
       ∧ p !! "user_id" = Some (JStr (auth_uid env))
       ∧ (gen_random_uuid env ∉ Milestone.id <$> milestones db)
       ∧ user_exists (auth_uid env) db
       ∧ goal_reference_ok (Milestone.goal_id m) db.
Proof.
  intros H. unfold insert_milestone in H. invert_write H.
  apply insert_checks_Ok in E as (_ & Hu & Hex & <- & Hfresh).
  apply check_Ok in E1. injection H as <-. by eexists.
Qed.

Lemma written_Err (r : result Store) (db : Store) :
  (∀ db', r ≠ Ok db') →
  (written r db).2 = db ∧ is_Some (error (written r db).1).
Proof. destruct r as [db'|e]; intros H; [by destruct (H db')|]. by split; [|eexists]. Qed.

(** ** Writes under the policies *)

(** An insert whose [user_id] is not the caller's own identity is refused
    on each of the four tables, and the store is left as it was. *)
Theorem foreign_insert_refused (env : Env) (p : gmap string jsval) (db : Store) :
  p !! "user_id" ≠ Some (JStr (auth_uid env)) →
  ((serve env (InsertTask p) db).2 = db
   ∧ is_Some (error (serve env (InsertTask p) db).1))
  ∧ ((serve env (InsertTimeBlock p) db).2 = db
     ∧ is_Some (error (serve env (InsertTimeBlock p) db).1))
  ∧ ((serve env (InsertGoal p) db).2 = db
     ∧ is_Some (error (serve env (InsertGoal p) db).1))
  ∧ ((serve env (InsertMilestone p) db).2 = db
     ∧ is_Some (error (serve env (InsertMilestone p) db).1)).
Proof.
  intros Hne. repeat split; try (apply written_Err; intros db' H).
  all: try (apply written_Err; intros db' H).
  - by apply insert_task_Ok in H as (? & _ & _ & _ & ? & _).
  - by apply insert_task_Ok in H as (? & _ & _ & _ & ? & _).
  - by apply insert_time_block_Ok in H as (? & _ & _ & _ & ? & _).
  - by apply insert_time_block_Ok in H as (? & _ & _ & _ & ? & _).
  - by apply insert_goal_Ok in H as (? & _ & _ & _ & ? & _).
  - by apply insert_goal_Ok in H as (? & _ & _ & _ & ? & _).
  - by apply insert_milestone_Ok in H as (? & _ & _ & _ & ? & _).
  - by apply insert_milestone_Ok in H as (? & _ & _ & _ & ? & _).
Qed.

Lemma visible_snoc_other {A} `{Owned A} (X : uuid) (rows : list A) (r : A) :
  owner r ≠ X → visible X (rows ++ [r]) = visible X rows.
Proof.
  intros Hne. rewrite visible_app. unfold visible at 2.
  rewrite filter_cons_False, filter_nil by done. apply app_nil_r.
Qed.

Lemma visible_update_other {A} `{Completable A, Owned A}
    (touch : timestamp → A → A) (env : Env) (X rid : uuid) (b : bool)
    (rows : list A) :
  (∀ n c r, owner (touch n (with_completed c r)) = owner r) →
  X ≠ auth_uid env →
  visible X (update_completed touch env rid b rows) = visible X rows.
Proof.
  intros Hown Hne. unfold visible, update_completed.
  rewrite filter_fmap_same.
  - rewrite <- (list_fmap_id (filter _ rows)) at 2.
    apply list_fmap_ext. intros i r Hr. simpl.
    assert (r ∈ filter (λ r, owner r = X) rows) as Hin
      by (apply list_elem_of_lookup; by exists i).
    apply list_elem_of_filter in Hin as [Hx _].
    rewrite decide_False; [done|]. intros [Ho _]. congruence.
  - intros r. case_decide; [by rewrite Hown|done].
Qed.

Lemma reads_through_own (X uid : uuid) (d : date) (db : Store) :
  select_tasks X uid d db = select_tasks X uid d (own X db)
  ∧ select_time_blocks X uid d db = select_time_blocks X uid d (own X db)
  ∧ select_goals X uid db = select_goals X uid (own X db)
  ∧ select_milestones X uid db = select_milestones X uid (own X db).
Proof.
  unfold select_tasks, select_time_blocks, select_goals, select_milestones, own.
  simpl. by rewrite !visible_idemp.
Qed.

(** No request that a session can issue adds, changes or removes a row
    owned by another identity [X]; so what [X] reads is the same before
    and after. *)
Theorem writes_stay_with_their_owner (env : Env) (X : uuid) {R : Type}
    (req : Request R) (db : Store) :
  X ≠ auth_uid env →
  own X (serve env req db).2 = own X db
  ∧ ∀ uid d,
      select_tasks X uid d (serve env req db).2 = select_tasks X uid d db
      ∧ select_time_blocks X uid d (serve env req db).2
        = select_time_blocks X uid d db
      ∧ select_goals X uid (serve env req db).2 = select_goals X uid db
      ∧ select_milestones X uid (serve env req db).2 = select_milestones X uid db.
Proof.
  intros Hne.
  assert (own X (serve env req db).2 = own X db) as Hown.
  { destruct req; simpl; try done.
    - unfold own; simpl. f_equal.
      apply (visible_update_other (A:=Task.t)); [by intros ? ? []|done].
    - unfold own; simpl. f_equal.
      apply (visible_update_other (A:=Goal.t)); [by intros ? ? []|done].
    - unfold own; simpl. f_equal.
      apply (visible_update_other (A:=Milestone.t)); [by intros ? ? []|done].
    - destruct (insert_task env payload db) as [db'|e] eqn:E; [|done].
      apply insert_task_Ok in E as (t & -> & _ & Ho & _). simpl.
      unfold own; simpl. f_equal.
      apply (visible_snoc_other (A:=Task.t)). unfold owner, Task_owned. congruence.
    - destruct (insert_time_block env payload db) as [db'|e] eqn:E; [|done].
      apply insert_time_block_Ok in E as (t & -> & _ & Ho & _). simpl.
      unfold own; simpl. f_equal.
      apply (visible_snoc_other (A:=TimeBlock.t)).
      unfold owner, TimeBlock_owned. congruence.
    - destruct (insert_goal env payload db) as [db'|e] eqn:E; [|done].
      apply insert_goal_Ok in E as (t & -> & _ & Ho & _). simpl.
      unfold own; simpl. f_equal.
      apply (visible_snoc_other (A:=Goal.t)). unfold owner, Goal_owned. congruence.
    - destruct (insert_milestone env payload db) as [db'|e] eqn:E; [|done].
      apply insert_milestone_Ok in E as (t & -> & _ & Ho & _). simpl.
      unfold own; simpl. f_equal.
      apply (visible_snoc_other (A:=Milestone.t)).
      unfold owner, Milestone_owned. congruence. }
  split; [exact Hown|]. intros uid d.
  destruct (reads_through_own X uid d (serve env req db).2) as (H1 & H2 & H3 & H4).
  destruct (reads_through_own X uid d db) as (G1 & G2 & G3 & G4).
  rewrite H1, H2, H3, H4, G1, G2, G3, G4, Hown. done.
Qed.

(** ** The constraints as an invariant *)

Lemma NoDup_snoc_fresh {A} (f : A → uuid) (rows : list A) (r : A) :
  NoDup (f <$> rows) → f r ∉ f <$> rows → NoDup (f <$> rows ++ [r]).
Proof.
  intros Hnd Hfresh. rewrite fmap_app. apply NoDup_app. split; [done|].
  split; [|apply NoDup_singleton].
  intros x Hx Hx'. apply list_elem_of_singleton in Hx' as ->. contradiction.
Qed.

Lemma update_completed_owner_key {A} `{Completable A, Owned A}
    (touch : timestamp → A → A) (env : Env) (rid : uuid) (b : bool)
    (rows : list A) :
  (∀ n c r, owner (touch n (with_completed c r)) = owner r
            ∧ key (touch n (with_completed c r)) = key r) →
  key <$> update_completed touch env rid b rows = key <$> rows
  ∧ ∀ r', r' ∈ update_completed touch env rid b rows →
          ∃ r, r ∈ rows ∧ owner r' = owner r ∧ key r' = key r.
Proof.
  intros Hpres. unfold update_completed. split.
  - rewrite <- list_fmap_compose. apply list_fmap_ext. intros i r _. simpl.
    case_decide; [apply Hpres|done].
  - intros r' Hr'. apply list_elem_of_fmap in Hr' as (r & -> & Hr).
    exists r. split; [done|]. case_decide; [apply Hpres|done].
Qed.

Lemma goal_reference_ok_mono (goal : option uuid) (db db' : Store) :
  (∀ g, g ∈ Goal.id <$> goals db → g ∈ Goal.id <$> goals db') →
  goal_reference_ok goal db → goal_reference_ok goal db'.
Proof. intros Hsub. destruct goal; simpl; auto. Qed.

Lemma integrity_insert_task (db : Store) (t : Task.t) :
  integrity db → Task.id t ∉ Task.id <$> tasks db → user_exists (Task.user_id t) db →
  integrity (set_tasks (λ rows, rows ++ [t]) db).
Proof.
  intros [] Hfresh Hex. split; simpl; try done.
  - by apply NoDup_snoc_fresh.
  - intros r [Hr| ->%list_elem_of_singleton]%elem_of_app;
      [by apply tasks_user_id_fkey0|exact Hex].
Qed.

Lemma integrity_insert_time_block (db : Store) (b : TimeBlock.t) :
  integrity db → TimeBlock.id b ∉ TimeBlock.id <$> time_blocks db →
  user_exists (TimeBlock.user_id b) db →
  integrity (set_time_blocks (λ rows, rows ++ [b]) db).
Proof.
  intros [] Hfresh Hex. split; simpl; try done.
  - by apply NoDup_snoc_fresh.
  - intros r [Hr| ->%list_elem_of_singleton]%elem_of_app;
      [by apply time_blocks_user_id_fkey0|exact Hex].
Qed.

Lemma integrity_insert_goal (db : Store) (g : Goal.t) :
  integrity db → Goal.id g ∉ Goal.id <$> goals db → user_exists (Goal.user_id g) db →
  integrity (set_goals (λ rows, rows ++ [g]) db).
Proof.
  intros [] Hfresh Hex. split; simpl; try done.
  - by apply NoDup_snoc_fresh.
  - intros r [Hr| ->%list_elem_of_singleton]%elem_of_app;
      [by apply goals_user_id_fkey0|exact Hex].
  - intros r Hr. eapply goal_reference_ok_mono; [|by apply milestones_goal_id_fkey0].
    simpl. intros x Hx. rewrite fmap_app. apply elem_of_app. by left.
Qed.

Lemma integrity_insert_milestone (db : Store) (m : Milestone.t) :
  integrity db → Milestone.id m ∉ Milestone.id <$> milestones db →
  user_exists (Milestone.user_id m) db → goal_reference_ok (Milestone.goal_id m) db →
  integrity (set_milestones (λ rows, rows ++ [m]) db).
Proof.
  intros [] Hfresh Hex Hgoal. split; simpl; try done.
  - by apply NoDup_snoc_fresh.
  - intros r [Hr| ->%list_elem_of_singleton]%elem_of_app;
      [by apply milestones_user_id_fkey0|exact Hex].
  - intros r [Hr| ->%list_elem_of_singleton]%elem_of_app.
    + by apply milestones_goal_id_fkey0.
    + exact Hgoal.
Qed.

Lemma integrity_update_tasks (env : Env) (rid : uuid) (b : bool) (db : Store) :
  integrity db → integrity (set_tasks (update_completed Task_touch env rid b) db).
Proof.
  intros [].
  destruct (update_completed_owner_key (A:=Task.t) Task_touch env rid b (tasks db))
    as [Hk Hr]; [by intros ? ? []|].
  split; cbn [users profiles tasks time_blocks goals milestones set_tasks
              set_goals set_milestones user_exists]; try done.
  - exact (eq_ind_r NoDup tasks_pkey0 Hk).
  - intros r' (r & Hin & Ho & _)%Hr. unfold owner, Task_owned in Ho.
    rewrite Ho. by apply tasks_user_id_fkey0.
Qed.

Lemma integrity_update_goals (env : Env) (rid : uuid) (b : bool) (db : Store) :
  integrity db → integrity (set_goals (update_completed Goal_touch env rid b) db).
Proof.
  intros [].
  destruct (update_completed_owner_key (A:=Goal.t) Goal_touch env rid b (goals db))
    as [Hk Hr]; [by intros ? ? []|].
  split; cbn [users profiles tasks time_blocks goals milestones set_tasks
              set_goals set_milestones user_exists]; try done.
  - exact (eq_ind_r NoDup goals_pkey0 Hk).
  - intros r' (r & Hin & Ho & _)%Hr. unfold owner, Goal_owned in Ho.
    rewrite Ho. by apply goals_user_id_fkey0.
  - intros r Hin. eapply goal_reference_ok_mono; [|by apply milestones_goal_id_fkey0].
    cbn [goals set_goals]. intros x Hx.
    exact (eq_ind_r (λ l, x ∈ l) Hx Hk).
Qed.

Lemma integrity_update_milestones (env : Env) (rid : uuid) (b : bool) (db : Store) :
  integrity db →
  integrity (set_milestones (update_completed Milestone_touch env rid b) db).
Proof.
  intros [].
  destruct (update_completed_owner_key (A:=Milestone.t) Milestone_touch env rid b
              (milestones db)) as [Hk Hr]; [by intros ? ? []|].
  split; cbn [users profiles tasks time_blocks goals milestones set_tasks
              set_goals set_milestones user_exists]; try done.
  - exact (eq_ind_r NoDup milestones_pkey0 Hk).
  - intros r' (r & Hin & Ho & _)%Hr. unfold owner, Milestone_owned in Ho.
    rewrite Ho. by apply milestones_user_id_fkey0.
  - intros r' Hr'. unfold update_completed in Hr'.
    apply list_elem_of_fmap in Hr' as (r & -> & Hin).
    specialize (milestones_goal_id_fkey0 r Hin).
    case_decide; [|done]. by destruct r.
Qed.

Lemma NoDup_fmap_filter {A} (f : A → uuid) (P : A → Prop) `{∀ x, Decision (P x)}
    (rows : list A) :
  NoDup (f <$> rows) → NoDup (f <$> filter P rows).
Proof.
  intros Hnd. eapply sublist_NoDup; [exact Hnd|].
  apply fmap_sublist, sublist_filter.
Qed.

Lemma integrity_delete_goal (env : Env) (gid : uuid) (db : Store) :
  integrity db → integrity (delete_goal env gid db).
Proof.
  intros []. split; simpl; try done.
  - by apply NoDup_fmap_filter.
  - by apply NoDup_fmap_filter.
  - intros r [_ Hr]%list_elem_of_filter. by apply goals_user_id_fkey0.
  - intros r [_ Hr]%list_elem_of_filter. by apply milestones_user_id_fkey0.
  - intros m [Hout Hm]%list_elem_of_filter.
    specialize (milestones_goal_id_fkey0 m Hm). unfold outlives in Hout.
    destruct (Milestone.goal_id m) as [g|]; [|done]. simpl in *.
    apply list_elem_of_fmap in milestones_goal_id_fkey0 as (g0 & -> & Hg0).
    apply list_elem_of_fmap. exists g0. split; [done|].
    apply list_elem_of_filter. split; [|done]. intros Hdoomed. apply Hout.
    apply list_elem_of_fmap. exists g0. split; [done|].
    by apply list_elem_of_filter.
Qed.

Lemma integrity_delete_user (uid : uuid) (db : Store) :
  integrity db → integrity (delete_user uid db).
Proof.
  intros [].
  assert (∀ u, u ≠ uid → user_exists u db → user_exists u (delete_user uid db))
    as Hex.
  { intros u Hne (a & -> & Ha)%list_elem_of_fmap.
    apply list_elem_of_fmap. exists a. split; [done|].
    apply list_elem_of_filter. by split. }
  split; simpl; try by apply NoDup_fmap_filter.
  - intros r [Hne Hr]%list_elem_of_filter. apply Hex; auto.
  - intros r [Hne Hr]%list_elem_of_filter. apply Hex; auto.
  - intros r [Hne Hr]%list_elem_of_filter. apply Hex; auto.
  - intros r [Hne Hr]%list_elem_of_filter. apply Hex; auto.
  - intros r [[Hne _] Hr]%list_elem_of_filter. apply Hex; auto.
  - intros m [[_ Hout] Hm]%list_elem_of_filter.
    specialize (milestones_goal_id_fkey0 m Hm). unfold outlives in Hout.
    destruct (Milestone.goal_id m) as [g|]; [|done]. simpl in *.
    apply list_elem_of_fmap in milestones_goal_id_fkey0 as (g0 & -> & Hg0).
    apply list_elem_of_fmap. exists g0. split; [done|].
    apply list_elem_of_filter. split; [|done]. intros Hown. apply Hout.
    apply list_elem_of_fmap. exists g0. split; [done|].
    by apply list_elem_of_filter.
Qed.

Lemma integrity_create_user (now : timestamp) (u : AuthUser.t) (db db' : Store) :
  integrity db → create_user now u db = Ok db' → integrity db'.
Proof.
  intros [] H. unfold create_user, handle_new_user in H. invert_write H.
  apply check_Ok in E, E0. simpl in E0. injection H as <-.
  assert (∀ x, user_exists x db →
               x ∈ AuthUser.id <$> users db ++ [u]) as Hex.
  { intros x Hx. rewrite fmap_app. apply elem_of_app. by left. }
  split; simpl; try done; try (intros r Hr; apply Hex; auto; fail).
  - by apply NoDup_snoc_fresh.
  - by apply NoDup_snoc_fresh.
  - intros p [Hp| ->%list_elem_of_singleton]%elem_of_app.
    + apply Hex. by apply profiles_id_fkey0.
    + unfold user_exists. simpl. rewrite fmap_app. apply elem_of_app. right.
      apply list_elem_of_singleton. done.
Qed.

(** Every request the client can issue, the deletion of a goal, the
    deletion of a user and the creation of a user leave a store that
    satisfies the constraints of the schema (unique keys, every [user_id]
    and profile [id] a user, every [goal_id] NULL or a goal) satisfying
    them. *)
Theorem integrity_kept (env : Env) (db : Store) :
  integrity db →
  (∀ R (req : Request R), integrity (serve env req db).2)
  ∧ (∀ gid, integrity (delete_goal env gid db))
  ∧ (∀ uid, integrity (delete_user uid db))
  ∧ (∀ now u db', create_user now u db = Ok db' → integrity db').
Proof.
  intros Hdb. split; [|split; [|split]].
  - intros R req. destruct req; simpl; try done.
    + by apply integrity_update_tasks.
    + by apply integrity_update_goals.
    + by apply integrity_update_milestones.
    + destruct (insert_task env payload db) as [db'|e] eqn:E; [|done].
      apply insert_task_Ok in E as (t & -> & Hid & Ho & _ & Hfresh & Hex). simpl.
      apply integrity_insert_task; [done|by rewrite Hid|by rewrite Ho].
    + destruct (insert_time_block env payload db) as [db'|e] eqn:E; [|done].
      apply insert_time_block_Ok in E as (t & -> & Hid & Ho & _ & Hfresh & Hex).
      simpl. apply integrity_insert_time_block; [done|by rewrite Hid|by rewrite Ho].
    + destruct (insert_goal env payload db) as [db'|e] eqn:E; [|done].
      apply insert_goal_Ok in E as (t & -> & Hid & Ho & _ & Hfresh & Hex). simpl.
      apply integrity_insert_goal; [done|by rewrite Hid|by rewrite Ho].
    + destruct (insert_milestone env payload db) as [db'|e] eqn:E; [|done].
      apply insert_milestone_Ok in E
        as (t & -> & Hid & Ho & _ & Hfresh & Hex & Hgoal). simpl.
      apply integrity_insert_milestone;
        [done|by rewrite Hid|by rewrite Ho|done].
  - intros gid. by apply integrity_delete_goal.
  - intros uid. by apply integrity_delete_user.
  - intros now u db' H. by eapply integrity_create_user.
Qed.

(** ** Deleting an account *)

Lemma visible_without {A} `{Owned A} (X uid : uuid) (rows : list A) :
  X ≠ uid → visible X (filter (λ r, owner r ≠ uid) rows) = visible X rows.
Proof.
  intros Hne. unfold visible. rewrite list_filter_filter.
  apply list_filter_iff. intros r. split; [by intros [? _]|].
  intros Hr. split; [done|congruence].
Qed.

Lemma visible_none {A} `{Owned A} (uid : uuid) (rows : list A) :
  visible uid (filter (λ r, owner r ≠ uid) rows) = [].
Proof.
  unfold visible. apply filter_none. intros r [Hne _]%list_elem_of_filter. done.
Qed.

(** Deleting a user leaves no user, profile, task, time block, goal or
    milestone of that identity. Of any other identity it leaves the tasks,
    time blocks and goals as they were, and the milestones except those
    that referenced a goal of the deleted user. *)
Theorem delete_user_cascades (uid : uuid) (db : Store) :
  let db' := delete_user uid db in
  (¬ user_exists uid db'
   ∧ (uid ∉ Profile.id <$> profiles db')
   ∧ visible uid (tasks db') = []
   ∧ visible uid (time_blocks db') = []
   ∧ visible uid (goals db') = []
   ∧ visible uid (milestones db') = [])
  ∧ ∀ Y, Y ≠ uid →
      visible Y (tasks db') = visible Y (tasks db)
      ∧ visible Y (time_blocks db') = visible Y (time_blocks db)
      ∧ visible Y (goals db') = visible Y (goals db)
      ∧ visible Y (milestones db')
        = filter (outlives (Goal.id <$> visible uid (goals db)))
                 (visible Y (milestones db)).
Proof.
  simpl. split.
  - split; [|split; [|split; [|split; [|split]]]].
    + intros (a & Ha & [Hne _]%list_elem_of_filter)%list_elem_of_fmap. congruence.
    + intros (a & Ha & [Hne _]%list_elem_of_filter)%list_elem_of_fmap. congruence.
    + apply (visible_none (A:=Task.t)).
    + apply (visible_none (A:=TimeBlock.t)).
    + apply (visible_none (A:=Goal.t)).
    + unfold visible. apply filter_none.
      intros r [[Hne _] _]%list_elem_of_filter. done.
  - intros Y HY. split; [|split; [|split]].
    + by apply (visible_without (A:=Task.t)).
    + by apply (visible_without (A:=TimeBlock.t)).
    + by apply (visible_without (A:=Goal.t)).
    + unfold visible. rewrite !list_filter_filter.
      apply list_filter_iff. intros m. unfold owner, Milestone_owned, Goal_owned.
      split.
      * intros (Ho & _ & Hout). by split.
      * intros (Hout & Ho). split; [done|]. split; [congruence|done].
Qed.

(** ** What the store makes of the dialog's payloads *)

(** What a nullable text column holds for a value built with [|| null]. *)
Lemma nullable_or_null (p : gmap string jsval) (c : string) (x : option string) :
  p !! c = Some (or_null x) →
  nullable p c = Ok (match x with
                     | Some s => if decide (s = "") then None else Some s
                     | None => None
                     end).
Proof.
  intros Hp. unfold nullable. rewrite Hp. destruct x as [s|]; simpl; [|done].
  by case_decide.
Qed.

(** What a nullable TIME or DATE column holds for a value built with
    [|| null]: NULL for a missing or empty field, otherwise the text has
    to convert. *)
Lemma converted_or_null {A} (conv : string → option A) (p : gmap string jsval)
    (c : string) (x : option string) (v : option A) :
  p !! c = Some (or_null x) →
  (y ← nullable p c; converted conv c y) = Ok v ↔
    match x with
    | Some s => if decide (s = "") then v = None
                else ∃ a, conv s = Some a ∧ v = Some a
    | None => v = None
    end.
Proof.
  intros Hp. rewrite (nullable_or_null _ _ x Hp).
  assert (Ok (A:=option A) None = Ok v ↔ v = None) as Hnone.
  { split; [by intros [= <-]|by intros ->]. }
  destruct x as [s|]; [|exact Hnone]. case_decide; [exact Hnone|].
  simpl. destruct (conv s) as [a|]; split.
  - intros [= <-]. by exists a.
  - by intros (a' & [= <-] & ->).
  - done.
  - by intros (? & ? & _).
Qed.

Lemma converted_or_null_Ok {A} (conv : string → option A) (p : gmap string jsval)
    (c : string) (x : option string) :
  p !! c = Some (or_null x) →
  (∀ s, x = Some s → s = "" ∨ is_Some (conv s)) →
  ∃ v, (y ← nullable p c; converted conv c y) = Ok v.
Proof.
  intros Hp Hx. destruct x as [s|].
  - destruct (decide (s = "")) as [->|Hne].
    + exists None. by apply (converted_or_null conv p c (Some "")).
    + destruct (Hx s eq_refl) as [?|[a Ha]]; [done|]. exists (Some a).
      apply (converted_or_null conv p c (Some s)); [done|].
      rewrite decide_False by done. by exists a.
  - exists None. by apply (converted_or_null conv p c None).
Qed.

Lemma not_null_as_string (p : gmap string jsval) (c : string) (x : option string) :
  p !! c = Some (as_string x) →
  not_null p c = match x with
                 | Some s => Ok s
                 | None => Err (not_null_violation c)
                 end.
Proof.
  intros Hp. unfold not_null, nullable. rewrite Hp. by destruct x.
Qed.

Lemma task_payload_dom (uid : uuid) (day : date) (formData : gmap string string) :
  dom (AddItemModal.task_payload uid day formData) ⊆ task_columns.
Proof.
  apply (bool_decide_unpack _). by vm_compute.
Qed.

(** The dialog's task insert is accepted exactly when the caller is the
    signed-in user, that user exists, the drawn id is free, a title was
    submitted and the alarm input is empty or converts to a TIME; nothing
    else about the store matters. The row it creates is not completed,
    carries the day the dialog was rendered on and both timestamps at
    [NOW()], and has a NULL alarm when the alarm input was left empty. *)
Theorem dialog_task_accepted (env : Env) (uid : uuid) (day : date)
    (formData : gmap string string) (db db' : Store) :
  insert_task env (AddItemModal.task_payload uid day formData) db = Ok db' ↔
    auth_uid env = uid
    ∧ user_exists uid db
    ∧ (gen_random_uuid env ∉ Task.id <$> tasks db)
    ∧ ∃ title alarm,
        formData !! "task-title" = Some title
        ∧ match formData !! "alarm-time" with
          | Some s => if decide (s = "") then alarm = None
                      else ∃ t, time_in env s = Some t ∧ alarm = Some t
          | None => alarm = None
          end
        ∧ db' = set_tasks (λ rows, rows ++
                  [Task.mk (gen_random_uuid env) uid title false day alarm
                           (NOW env) (NOW env)]) db.
Proof.
  unfold insert_task.
  rewrite (not_null_as_string _ "title" (formData !! "task-title")) by reflexivity.
  rewrite (proj2 (not_null_Ok _ "task_date" day)) by reflexivity.
  change (completed_or_default (AddItemModal.task_payload uid day formData))
    with (Ok (A:=bool) false).
  split.
  - intros H. invert_write H.
    apply insert_checks_Ok in E as (_ & [= <-] & Hex & Hauth & Hfresh).
    destruct (formData !! "task-title") as [title|]; [|done].
    injection E0 as <-. injection E1 as <-. injection E2 as <-.
    apply (converted_or_null (time_in env) _ "alarm_time"
             (formData !! "alarm-time")) in E3; [|reflexivity].
    injection H as <-. repeat split; try done. by exists title, a3.
  - intros (Hauth & Hex & Hfresh & title & alarm & Ht & Halarm & ->).
    rewrite (proj2 (insert_checks_Ok env task_columns _ _ db uid)).
    + rewrite Ht. simpl. unfold time_nullable.
      rewrite (proj2 (converted_or_null (time_in env)
                        (AddItemModal.task_payload uid day formData)
                        "alarm_time" (formData !! "alarm-time") alarm eq_refl))
        by exact Halarm.
      reflexivity.
    + split; [apply task_payload_dom|]. by repeat split.
Qed.

Lemma time_not_null_as_string (env : Env) (p : gmap string jsval) (c : string)
    (x : option string) (t : time) :
  p !! c = Some (as_string x) →
  time_not_null env p c = Ok t ↔ ∃ s, x = Some s ∧ time_in env s = Some t.
Proof.
  intros Hp. unfold time_not_null. rewrite (not_null_as_string _ _ x Hp).
  destruct x as [s|]; simpl.
  - split.
    + destruct (time_in env s) as [t'|] eqn:E; [|done]. intros [= ->]. by exists s.
    + by intros (s' & [= <-] & ->).
  - split; [done|]. by intros (? & ? & _).
Qed.

(** The dialog's time-block insert is accepted exactly when the caller is
    the signed-in user, that user exists, the drawn id is free, a title
    was submitted and both time inputs convert; neither the order of the
    two times nor the blocks already in the store are looked at. *)
Theorem dialog_time_block_accepted (env : Env) (uid : uuid) (day : date)
    (formData : gmap string string) (db db' : Store) :
  insert_time_block env (AddItemModal.time_block_payload uid day formData) db
    = Ok db' ↔
    auth_uid env = uid
    ∧ user_exists uid db
    ∧ (gen_random_uuid env ∉ TimeBlock.id <$> time_blocks db)
    ∧ ∃ title s0 s1 t0 t1,
        formData !! "block-title" = Some title
        ∧ formData !! "start-time" = Some s0 ∧ time_in env s0 = Some t0
        ∧ formData !! "end-time" = Some s1 ∧ time_in env s1 = Some t1
        ∧ db' = set_time_blocks (λ rows, rows ++
                  [TimeBlock.mk (gen_random_uuid env) uid title day t0 t1
                     (match formData !! "block-description" with
                      | Some s => if decide (s = "") then None else Some s
                      | None => None
                      end)
                     (NOW env)]) db.
Proof.
  unfold insert_time_block.
  rewrite (not_null_as_string _ "title" (formData !! "block-title")) by reflexivity.
  rewrite (nullable_or_null _ "description" (formData !! "block-description"))
    by reflexivity.
  rewrite (proj2 (not_null_Ok _ "block_date" day)) by reflexivity.
  split.
  - intros H. invert_write H.
    apply insert_checks_Ok in E as (_ & [= <-] & Hex & Hauth & Hfresh).
    destruct (formData !! "block-title") as [title|]; [|done].
    apply (time_not_null_as_string env _ _ (formData !! "start-time"))
      in E2 as (s0 & Hs0 & Ht0); [|reflexivity].
    apply (time_not_null_as_string env _ _ (formData !! "end-time"))
      in E3 as (s1 & Hs1 & Ht1); [|reflexivity].
    injection E0 as <-. injection E1 as <-. injection E4 as <-.
    injection H as <-. repeat split; try done.
    by exists title, s0, s1, a2, a3.
  - intros (Hauth & Hex & Hfresh & title & s0 & s1 & t0 & t1
            & Ht & Hs0 & Ht0 & Hs1 & Ht1 & ->).
    rewrite (proj2 (insert_checks_Ok env time_block_columns _ _ db uid)).
    + rewrite Ht. simpl.
      rewrite (proj2 (time_not_null_as_string env
                        (AddItemModal.time_block_payload uid day formData)
                        "start_time" (formData !! "start-time") t0 eq_refl))
        by (by exists s0).
      simpl.
      rewrite (proj2 (time_not_null_as_string env
                        (AddItemModal.time_block_payload uid day formData)
                        "end_time" (formData !! "end-time") t1 eq_refl))
        by (by exists s1).
      reflexivity.
    + split; [apply (bool_decide_unpack _); by vm_compute|]. by repeat split.
Qed.

(** The dialog's goal insert is accepted exactly when, besides the
    conditions on the user and the id, a title was submitted, the type
    field is [yearly] or [monthly], and the target date input is empty or
    converts to a DATE. The goal starts not completed. *)
Theorem dialog_goal_accepted (env : Env) (uid : uuid)
    (formData : gmap string string) (db db' : Store) :
  insert_goal env (AddItemModal.goal_payload uid formData) db = Ok db' ↔
    auth_uid env = uid
    ∧ user_exists uid db
    ∧ (gen_random_uuid env ∉ Goal.id <$> goals db)
    ∧ ∃ title ty target,
        formData !! "goal-title" = Some title
        ∧ (formData !! "goal-type" = Some "yearly" ∧ ty = yearly
           ∨ formData !! "goal-type" = Some "monthly" ∧ ty = monthly)
        ∧ match formData !! "target-date" with
          | Some s => if decide (s = "") then target = None
                      else ∃ d, date_in env s = Some d ∧ target = Some d
          | None => target = None
          end
        ∧ db' = set_goals (λ rows, rows ++
                  [Goal.mk (gen_random_uuid env) uid title
                     (match formData !! "goal-description" with
                      | Some s => if decide (s = "") then None else Some s
                      | None => None
                      end)
                     ty target false (NOW env) (NOW env)]) db.
Proof.
  unfold insert_goal.
  rewrite (not_null_as_string _ "title" (formData !! "goal-title")) by reflexivity.
  rewrite (not_null_as_string _ "goal_type" (formData !! "goal-type")) by reflexivity.
  rewrite (nullable_or_null _ "description" (formData !! "goal-description"))
    by reflexivity.
  change (completed_or_default (AddItemModal.goal_payload uid formData))
    with (Ok (A:=bool) false).
  split.
  - intros H. invert_write H.
    apply insert_checks_Ok in E as (_ & [= <-] & Hex & Hauth & Hfresh).
    destruct (formData !! "goal-title") as [title|]; [|done].
    destruct (formData !! "goal-type") as [s|]; [|done].
    injection E0 as <-. injection E1 as <-. injection E2 as <-.
    apply (converted_or_null (date_in env) _ "target_date"
             (formData !! "target-date")) in E4; [|reflexivity].
    injection E5 as <-. injection H as <-.
    repeat split; try done. exists title, a3, a4. split; [done|].
    split; [|done].
    unfold goal_type_in in E3. repeat case_decide; try done.
    + left. injection E3 as <-. by subst.
    + right. injection E3 as <-. by subst.
  - intros (Hauth & Hex & Hfresh & title & ty & target & Ht & Hty & Htarget & ->).
    rewrite (proj2 (insert_checks_Ok env goal_columns _ _ db uid)).
    + rewrite Ht. simpl.
      assert (∀ k : option date → result Store,
                date_nullable env (AddItemModal.goal_payload uid formData)
                              "target_date" ≫= k = k target) as Hd.
      { intros k. unfold date_nullable.
        by rewrite (proj2 (converted_or_null (date_in env)
                             (AddItemModal.goal_payload uid formData)
                             "target_date" (formData !! "target-date") target
                             eq_refl) Htarget). }
      destruct Hty as [[-> ->]|[-> ->]]; simpl; by rewrite Hd.
    + split; [apply (bool_decide_unpack _); by vm_compute|]. by repeat split.
Qed.

(** The dialog's milestone insert is accepted exactly when, besides the
    conditions on the user and the id, a title was submitted and the date
    input is empty or converts to a DATE. The milestone starts not
    completed and references no goal. *)
Theorem dialog_milestone_accepted (env : Env) (uid : uuid)
    (formData : gmap string string) (db db' : Store) :
  insert_milestone env (AddItemModal.milestone_payload uid formData) db = Ok db' ↔
    auth_uid env = uid
    ∧ user_exists uid db
    ∧ (gen_random_uuid env ∉ Milestone.id <$> milestones db)
    ∧ ∃ title target,
        formData !! "milestone-title" = Some title
        ∧ match formData !! "milestone-date" with
          | Some s => if decide (s = "") then target = None
                      else ∃ d, date_in env s = Some d ∧ target = Some d
          | None => target = None
          end
        ∧ db' = set_milestones (λ rows, rows ++
                  [Milestone.mk (gen_random_uuid env) uid None title
                     (match formData !! "milestone-description" with
                      | Some s => if decide (s = "") then None else Some s
                      | None => None
                      end)
                     false target (NOW env) (NOW env)]) db.
Proof.
  unfold insert_milestone.
  rewrite (not_null_as_string _ "title" (formData !! "milestone-title"))
    by reflexivity.
  rewrite (nullable_or_null _ "description" (formData !! "milestone-description"))
    by reflexivity.
  change (nullable (AddItemModal.milestone_payload uid formData) "goal_id")
    with (Ok (A:=option string) None).
  change (completed_or_default (AddItemModal.milestone_payload uid formData))
    with (Ok (A:=bool) false).
  split.
  - intros H. invert_write H.
    apply insert_checks_Ok in E as (_ & [= <-] & Hex & Hauth & Hfresh).
    destruct (formData !! "milestone-title") as [title|]; [|done].
    injection E0 as <-. injection E2 as <-. injection E3 as <-.
    injection E4 as <-.
    apply (converted_or_null (date_in env) _ "target_date"
             (formData !! "milestone-date")) in E5; [|reflexivity].
    injection H as <-. repeat split; try done. by exists title, a5.
  - intros (Hauth & Hex & Hfresh & title & target & Ht & Htarget & ->).
    rewrite (proj2 (insert_checks_Ok env milestone_columns _ _ db uid)).
    + rewrite Ht. simpl. unfold date_nullable.
      rewrite (proj2 (converted_or_null (date_in env)
                        (AddItemModal.milestone_payload uid formData)
                        "target_date" (formData !! "milestone-date") target
                        eq_refl))
        by exact Htarget.
      reflexivity.
    + split; [apply (bool_decide_unpack _); by vm_compute|]. by repeat split.
Qed.

(** ** References across owners *)

(** The foreign key of [milestones.goal_id] asks only that the goal
    exists: a milestone may reference a goal of another identity. When the
    goal's owner deletes the goal, that milestone goes too, although it is
    not the owner's row. (The form is one the store takes: it has a title,
    and its date is empty or converts.) *)
Theorem milestone_may_reference_any_goal (env owner_env : Env) (uid : uuid)
    (formData : gmap string string) (title : string) (g : Goal.t) (db : Store) :
  auth_uid env = uid →
  user_exists uid db →
  gen_random_uuid env ∉ Milestone.id <$> milestones db →
  formData !! "milestone-title" = Some title →
  (∀ s, formData !! "milestone-date" = Some s → s = "" ∨ is_Some (date_in env s)) →
  g ∈ goals db →
  auth_uid owner_env = Goal.user_id g →
  ∃ db' m,
    insert_milestone env
      (<["goal_id" := JStr (Goal.id g)]>
         (AddItemModal.milestone_payload uid formData)) db = Ok db'
    ∧ milestones db' = milestones db ++ [m]
    ∧ Milestone.user_id m = uid
    ∧ Milestone.goal_id m = Some (Goal.id g)
    ∧ m ∉ milestones (delete_goal owner_env (Goal.id g) db').
Proof.
  intros Hauth Hex Hfresh Ht Hdate Hg Howner.
  assert (∃ target,
            date_nullable env
              (<["goal_id" := JStr (Goal.id g)]>
                 (AddItemModal.milestone_payload uid formData)) "target_date"
            = Ok target) as [target Htarget].
  { by apply (converted_or_null_Ok (date_in env) _ "target_date"
                (formData !! "milestone-date")). }
  eexists _, _. split.
  { unfold insert_milestone.
    rewrite (proj2 (insert_checks_Ok env milestone_columns _ _ db uid)).
    - simpl.
      change (nullable _ "goal_id") with (Ok (A:=option string) (Some (Goal.id g))).
      simpl. unfold check.
      rewrite decide_True
        by (simpl; apply list_elem_of_fmap; by exists g).
      simpl.
      rewrite (not_null_as_string _ "title" (formData !! "milestone-title"))
        by reflexivity.
      rewrite Ht. simpl.
      rewrite (nullable_or_null _ "description"
                 (formData !! "milestone-description")) by reflexivity.
      simpl.
      change (completed_or_default _) with (Ok (A:=bool) false). simpl.
      rewrite Htarget. simpl. reflexivity.
    - split; [apply (bool_decide_unpack _); by vm_compute|]. by repeat split. }
  simpl. split; [reflexivity|]. split; [reflexivity|]. split; [reflexivity|].
  intros [Hout _]%list_elem_of_filter. unfold outlives in Hout. simpl in Hout.
  apply Hout. apply list_elem_of_fmap. exists g. split; [done|].
  apply list_elem_of_filter. by split.
Qed.

(** ** What a toggle and a load leave alone *)

Lemma map_completed_length {A} `{Completable A} rid b (rows : list A) :
  length (map_completed rid b rows) = length rows.
Proof. unfold map_completed. apply length_fmap. Qed.

Lemma map_completed_ids (rid : uuid) (b : bool) :
  (∀ rows : list Task.t, Task.id <$> map_completed rid b rows = Task.id <$> rows)
  ∧ (∀ rows : list Goal.t, Goal.id <$> map_completed rid b rows = Goal.id <$> rows)
  ∧ (∀ rows : list Milestone.t,
       Milestone.id <$> map_completed rid b rows = Milestone.id <$> rows).
Proof.
  split; [|split]; intros rows.
  - exact (map_completed_key (A:=Task.t) rid b rows).
  - exact (map_completed_key (A:=Goal.t) rid b rows).
  - exact (map_completed_key (A:=Milestone.t) rid b rows).
Qed.

(** Whatever the store answers, and whatever arguments it is called with,
    a toggle neither adds, removes nor reorders records, leaves the rest
    of the view's state alone, and issues the one update and no read. *)
Theorem toggle_keeps_the_records {S : Type}
    (srv : ∀ R, Request R → S → Reply R * S) (s : S) (rid : uuid) (c : bool) :
  (∀ st : TodayView.State,
     let r := exec srv (TodayView.toggleTask rid c) st s in
     Task.id <$> TodayView.tasks r.1.1 = Task.id <$> TodayView.tasks st
     ∧ TodayView.timeBlocks r.1.1 = TodayView.timeBlocks st
     ∧ omap (λ a, if is_fetch a then Some a else None) r.2 = []
     ∧ r.1.2 = (srv _ (UpdateTaskCompleted rid (negb c)) s).2)
  ∧ (∀ st : GoalsView.State,
       let r := exec srv (GoalsView.toggleGoal rid c) st s in
       Goal.id <$> GoalsView.goals r.1.1 = Goal.id <$> GoalsView.goals st
       ∧ GoalsView.activeTab r.1.1 = GoalsView.activeTab st
       ∧ omap (λ a, if is_fetch a then Some a else None) r.2 = []
       ∧ r.1.2 = (srv _ (UpdateGoalCompleted rid (negb c)) s).2)
  ∧ (∀ st : MilestonesView.State,
       let r := exec srv (MilestonesView.toggleMilestone rid c) st s in
       Milestone.id <$> MilestonesView.milestones r.1.1
         = Milestone.id <$> MilestonesView.milestones st
       ∧ MilestonesView.goals r.1.1 = MilestonesView.goals st
       ∧ omap (λ a, if is_fetch a then Some a else None) r.2 = []
       ∧ r.1.2 = (srv _ (UpdateMilestoneCompleted rid (negb c)) s).2).
Proof.
  split; [|split]; intros st r; subst r; simpl; await_reply srv;
    destruct (error reply); simpl; repeat split;
    rewrite ?(proj1 (map_completed_ids rid _)),
      ?(proj1 (proj2 (map_completed_ids rid _))),
      ?(proj2 (proj2 (map_completed_ids rid _))); done.
Qed.

(** [fetchData] always issues both reads, the goal lookup after the
    milestones, whatever the first one returns. Each list is replaced by
    the rows of its own reply when that reply carries no error and is
    left as it was otherwise; a failed milestones read is shown to the
    user, a failed goal lookup only logged. *)
Theorem fetchData_reads_are_independent {S : Type}
    (srv : ∀ R, Request R → S → Reply R * S) (s : S) (uid : uuid)
    (st : MilestonesView.State) :
  let r1 := srv _ (SelectMilestones uid) s in
  let r2 := srv _ (SelectGoalTitles uid) r1.2 in
  let r := exec srv (MilestonesView.fetchData uid) st s in
  MilestonesView.milestones r.1.1
    = match error r1.1 with
      | Some _ => MilestonesView.milestones st
      | None => or_empty (data r1.1)
      end
  ∧ MilestonesView.goals r.1.1
    = match error r2.1 with
      | Some _ => MilestonesView.goals st
      | None => or_empty (data r2.1)
      end
  ∧ r.2 = (match error r1.1 with
           | Some _ => [Issued (SelectMilestones uid);
                        Performed (toast_error "Failed to load milestones");
                        Issued (SelectGoalTitles uid)]
           | None => [Issued (SelectMilestones uid); Issued (SelectGoalTitles uid)]
           end)
          ++ match error r2.1 with
             | Some _ => [Performed (console_error "Failed to load goals")]
             | None => []
             end.
Proof.
  simpl. destruct (srv _ (SelectMilestones uid) s) as [r1 s1]. simpl.
  destruct (error r1); simpl;
    destruct (srv _ (SelectGoalTitles uid) s1) as [r2 s2]; simpl;
    by destruct (error r2).
Qed.

(** A submission without a signed-in user does nothing. With one, each of
    the four handlers issues exactly its one insert, ends with [loading]
    cleared whatever the reply, and closes the dialog exactly when the
    reply carries no error. *)
Theorem submit_protocol {S : Type} (srv : ∀ R, Request R → S → Reply R * S)
    (s : S) (clock : date) (form : AddItemModal.Form)
    (formData : gmap string string) (st : AddItemModal.State) :
  (exec srv (AddItemModal.handler (AddItemModal.render None clock) form formData)
        st s = (st, s, []))
  ∧ ∀ uid,
      let r := exec srv (AddItemModal.handler (AddItemModal.render (Some uid) clock)
                           form formData) st s in
      AddItemModal.loading r.1.1 = false
      ∧ length (omap inserted r.2) = 1%nat
      ∧ omap (λ a, if is_fetch a then Some a else None) r.2 = []
      ∧ (Performed (onOpenChange false) ∈ r.2 ↔
         Performed (toast_error
                      match form with
                      | AddItemModal.TaskForm => "Failed to add task"
                      | AddItemModal.TimeBlockForm => "Failed to add time block"
                      | AddItemModal.GoalForm => "Failed to add goal"
                      | AddItemModal.MilestoneForm => "Failed to add milestone"
                      end) ∉ r.2).
Proof.
  split; [by destruct form|]. intros uid r. subst r.
  destruct form; simpl; await_reply srv; destruct (error reply); simpl;
    (split; [done|]); (split; [done|]); (split; [done|]);
    rewrite !elem_of_cons, !elem_of_nil; split; intros H;
    try (intros H'); intuition discriminate.
Qed.

(** ** Notifications and overlapping loads *)

(** A change notification makes a view re-read exactly the table the
    notification is about, with the arguments its effect ran with, and
    only for the signed-in owner; notifications about other tables or
    other owners do nothing. TodayView re-reads tasks and time blocks
    separately; MilestonesView does not re-read on a change of goals. *)
Theorem notifications_are_routed (uid : uuid) (today : date) :
  (∀ rt : Runtime TodayView.State,
     channels rt
       = channels (mount TodayView.initial (TodayView.effect (Some uid) today)) →
     notify "tasks" uid rt = start (TodayView.fetchTasks uid today) rt
     ∧ notify "time_blocks" uid rt = start (TodayView.fetchTimeBlocks uid today) rt
     ∧ ∀ tbl owner, (tbl ≠ "tasks" ∧ tbl ≠ "time_blocks") ∨ owner ≠ uid →
                    notify tbl owner rt = rt)
  ∧ (∀ rt : Runtime GoalsView.State,
       channels rt = channels (mount GoalsView.initial (GoalsView.effect (Some uid))) →
       notify "goals" uid rt = start (GoalsView.fetchGoals uid) rt
       ∧ ∀ tbl owner, tbl ≠ "goals" ∨ owner ≠ uid → notify tbl owner rt = rt)
  ∧ (∀ rt : Runtime MilestonesView.State,
       channels rt
         = channels (mount MilestonesView.initial
                           (MilestonesView.effect (Some uid))) →
       notify "milestones" uid rt = start (MilestonesView.fetchData uid) rt
       ∧ ∀ tbl owner, tbl ≠ "milestones" ∨ owner ≠ uid → notify tbl owner rt = rt).
Proof.
  split; [|split]; intros rt Hch; unfold notify; rewrite Hch; simpl;
    repeat split; try (intros tbl owner H);
    repeat case_decide; try done; exfalso; intuition congruence.
Qed.

Lemma settle_fetchTasks (rt : Runtime TodayView.State) (i : nat)
    (answer : ∀ R, Request R → Reply R) (uid : uuid) (d : date) :
  inflight rt !! i = suspended (TodayView.fetchTasks uid d) →
  error (answer _ (SelectTasks uid d)) = None →
  settle i answer rt
  = mkRuntime (if mounted rt
               then TodayView.setTasks
                      (λ _, or_empty (data (answer _ (SelectTasks uid d))))
                      (state rt)
               else state rt)
              (mounted rt) (delete i (inflight rt)) (channels rt) (actions rt).
Proof.
  intros Hp Herr. rewrite (settle_pending _ _ _ _ Hp). simpl. by rewrite Herr.
Qed.

(** Of two loads of the day's tasks in flight at once, the one that
    resolves last decides the list, whichever was issued first. (On an
    instance that has been unmounted neither does: the list stays.) *)
Theorem last_resolved_load_wins (rt : Runtime TodayView.State) (i j : nat)
    (uid : uuid) (d1 d2 : date) (a1 a2 : ∀ R, Request R → Reply R) :
  (i < j)%nat →
  inflight rt !! i = suspended (TodayView.fetchTasks uid d1) →
  inflight rt !! j = suspended (TodayView.fetchTasks uid d2) →
  error (a1 _ (SelectTasks uid d1)) = None →
  error (a2 _ (SelectTasks uid d2)) = None →
  TodayView.tasks (state (settle (j - 1) a2 (settle i a1 rt)))
    = (if mounted rt then or_empty (data (a2 _ (SelectTasks uid d2)))
       else TodayView.tasks (state rt))
  ∧ TodayView.tasks (state (settle i a1 (settle j a2 rt)))
    = (if mounted rt then or_empty (data (a1 _ (SelectTasks uid d1)))
       else TodayView.tasks (state rt)).
Proof.
  intros Hij Hi Hj H1 H2. split.
  - rewrite (settle_fetchTasks rt i a1 uid d1 Hi H1).
    rewrite (settle_fetchTasks _ (j - 1) a2 uid d2); [by destruct (mounted rt)| |done].
    simpl. rewrite list_lookup_delete_ge by lia.
    by replace (S (j - 1)) with j by lia.
  - rewrite (settle_fetchTasks rt j a2 uid d2 Hj H2).
    rewrite (settle_fetchTasks _ i a1 uid d1); [by destruct (mounted rt)| |done].
    simpl. by rewrite list_lookup_delete_lt by lia.
Qed.

(** ** From the dialog to the list *)

Lemma notify_tasks (uid : uuid) (today : date) (rt : Runtime TodayView.State) :
  channels rt
    = channels (mount TodayView.initial (TodayView.effect (Some uid) today)) →
  notify "tasks" uid rt = start (TodayView.fetchTasks uid today) rt.
Proof.
  intros Hch. unfold notify. rewrite Hch. simpl.
  case_decide; [done|]. exfalso. intuition congruence.
Qed.

Lemma insert_task_dialog (env : Env) (uid : uuid) (day : date)
    (formData : gmap string string) (title : string) (db : Store) :
  auth_uid env = uid → user_exists uid db →
  gen_random_uuid env ∉ Task.id <$> tasks db →
  formData !! "task-title" = Some title →
  (∀ s, formData !! "alarm-time" = Some s → s = "" ∨ is_Some (time_in env s)) →
  ∃ alarm,
    insert_task env (AddItemModal.task_payload uid day formData) db
    = Ok (set_tasks (λ rows, rows ++
            [Task.mk (gen_random_uuid env) uid title false day alarm
                     (NOW env) (NOW env)]) db).
Proof.
  intros Hauth Hex Hfresh Ht Halarm.
  destruct (converted_or_null_Ok (time_in env)
              (AddItemModal.task_payload uid day formData) "alarm_time"
              (formData !! "alarm-time") eq_refl Halarm) as [alarm Hconv].
  exists alarm. unfold insert_task, time_nullable.
  rewrite (not_null_as_string _ "title" (formData !! "task-title")) by reflexivity.
  rewrite (proj2 (not_null_Ok _ "task_date" day)) by reflexivity.
  rewrite Hconv.
  rewrite (proj2 (insert_checks_Ok env task_columns _ _ db uid)).
  - rewrite Ht. reflexivity.
  - split; [apply task_payload_dom|]. by repeat split.
Qed.

(** The dialog does not add the new task to the list itself. Once the
    insert has succeeded (the form has a title, and its alarm is empty or
    converts), the change notification makes the mounted TodayView read
    the day's tasks again, and when that read resolves the list is the
    store's and holds the new task, not completed, provided the view's day
    is the day the dialog was rendered on. *)
Theorem added_task_shows_after_refetch (env env' : Env) (uid : uuid) (day : date)
    (formData : gmap string string) (title : string) (db : Store)
    (st : AddItemModal.State) (rt : Runtime TodayView.State) :
  auth_uid env = uid → auth_uid env' = uid →
  user_exists uid db →
  gen_random_uuid env ∉ Task.id <$> tasks db →
  formData !! "task-title" = Some title →
  (∀ s, formData !! "alarm-time" = Some s → s = "" ∨ is_Some (time_in env s)) →
  mounted rt = true →
  channels rt
    = channels (mount TodayView.initial (TodayView.effect (Some uid) day)) →
  let r := exec (@serve env)
             (AddItemModal.handler (AddItemModal.render (Some uid) day)
                AddItemModal.TaskForm formData) st db in
  let rt' := settle (length (inflight rt)) (answers_of env' r.1.2)
               (notify "tasks" uid rt) in
  Performed (onOpenChange false) ∈ r.2
  ∧ TodayView.tasks (state rt') = select_tasks uid uid day r.1.2
  ∧ ∃ t, t ∈ TodayView.tasks (state rt')
         ∧ Task.id t = gen_random_uuid env ∧ Task.title t = title
         ∧ Task.completed t = false ∧ Task.task_date t = day.
Proof.
  intros Hauth Hauth' Hex Hfresh Ht Halarm Hm Hch r rt'.
  destruct (insert_task_dialog env uid day formData title db
              Hauth Hex Hfresh Ht Halarm) as [alarm Hins].
  assert (r = (AddItemModal.mkState false,
               set_tasks (λ rows, rows ++
                 [Task.mk (gen_random_uuid env) uid title false day alarm
                          (NOW env) (NOW env)]) db,
               [Issued (InsertTask (AddItemModal.task_payload uid day formData));
                Performed (toast_success "Task added!");
                Performed (onOpenChange false)])) as Hr.
  { subst r. simpl. by rewrite Hins. }
  assert (TodayView.tasks (state rt') = select_tasks uid uid day r.1.2) as Hlist.
  { subst rt'. rewrite (notify_tasks uid day rt Hch).
    rewrite (settle_fetchTasks _ (length (inflight rt)) _ uid day).
    - simpl. rewrite Hm. simpl. by rewrite Hauth'.
    - simpl. by rewrite lookup_app_r, Nat.sub_diag by lia.
    - done. }
  split; [rewrite Hr; simpl; right; right; left|]. split; [exact Hlist|].
  rewrite Hlist, Hr. simpl. eexists. split.
  - unfold select_tasks, visible. apply elem_of_order.
    rewrite !list_elem_of_filter.
    repeat split; [..|apply elem_of_app; right; by left]; done.
  - done.
Qed.

(** ** The goal tabs and the goal badge *)

(** The two tabs split the goals between them: every goal is on exactly
    one tab, in the order of the list. A toggle changes the flag of a goal
    where it stands and never moves it to the other tab. *)
Theorem tabs_partition_goals (st : GoalsView.State) :
  GoalsView.filteredGoals (GoalsView.setActiveTab yearly st)
    ++ GoalsView.filteredGoals (GoalsView.setActiveTab monthly st)
    ≡ₚ GoalsView.goals st
  ∧ (∀ g, g ∈ GoalsView.goals st →
          (g ∈ GoalsView.filteredGoals (GoalsView.setActiveTab yearly st)
           ↔ g ∉ GoalsView.filteredGoals (GoalsView.setActiveTab monthly st)))
  ∧ ∀ rid b,
      GoalsView.filteredGoals (GoalsView.setGoals (map_completed rid b) st)
      = map_completed rid b (GoalsView.filteredGoals st).
Proof.
  unfold GoalsView.filteredGoals. simpl. split; [|split].
  - rewrite <- (filter_app_complement (λ g, Goal.goal_type g = yearly)
                  (GoalsView.goals st)) at 3.
    f_equiv. apply reflexive_eq, list_filter_iff. intros g.
    destruct (Goal.goal_type g); intuition congruence.
  - intros g Hg. rewrite !list_elem_of_filter.
    destruct (Goal.goal_type g); intuition congruence.
  - intros rid b. unfold map_completed. apply filter_fmap_same.
    intros g. case_decide; [by destruct g|done].
Qed.

Lemma filter_key_unique {A} (f : A → uuid) (rows : list A) (x : A) :
  NoDup (f <$> rows) → x ∈ rows → filter (λ y, f y = f x) rows = [x].
Proof.
  induction rows as [|r rows IH]; intros Hnd Hx; [by apply elem_of_nil in Hx|].
  rewrite fmap_cons in Hnd. apply NoDup_cons in Hnd as [Hr Hnd].
  apply elem_of_cons in Hx as [->|Hx].
  - rewrite filter_cons_True by done. f_equal. apply filter_none.
    intros y Hy Heq. apply Hr. rewrite <- Heq. apply list_elem_of_fmap. by exists y.
  - rewrite filter_cons_False; [by apply IH|].
    intros Heq. apply Hr. rewrite Heq. apply list_elem_of_fmap. by exists x.
Qed.

Lemma filter_fmap_pre {A B} (h : A → B) (P : B → Prop) `{∀ y, Decision (P y)}
    (rows : list A) :
  filter P (h <$> rows) = h <$> filter (λ x, P (h x)) rows.
Proof.
  induction rows as [|r rows IH]; [done|].
  rewrite fmap_cons, !filter_cons. case_decide; [|done]. by rewrite fmap_cons, IH.
Qed.

Lemma filter_swap {A} (P Q : A → Prop) `{∀ x, Decision (P x), ∀ x, Decision (Q x)}
    (rows : list A) :
  filter P (filter Q rows) = filter Q (filter P rows).
Proof.
  rewrite !list_filter_filter. apply list_filter_iff. intros x. tauto.
Qed.

(** After [fetchData] has run against the store, the badge lookup for a
    goal of the store gives that goal's title when the signed-in user owns
    the goal, and nothing when another identity owns it; for a milestone
    without goal it gives nothing. *)
Theorem goal_badge_shows_own_goals (env : Env) (uid : uuid) (db : Store)
    (st : MilestonesView.State) (g : Goal.t) :
  auth_uid env = uid →
  NoDup (Goal.id <$> goals db) →
  g ∈ goals db →
  Goal.id g ≠ "" →
  let st' := (exec (@serve env) (MilestonesView.fetchData uid) st db).1.1 in
  getGoalTitle st' (Some (Goal.id g))
    = (if decide (Goal.user_id g = uid) then Some (Goal.title g) else None)
  ∧ getGoalTitle st' None = None.
Proof.
  intros Hauth Hnd Hg Hid st'. subst st'. simpl. split; [|done].
  unfold getGoalTitle. rewrite decide_False by done. simpl.
  unfold select_goal_titles, visible. rewrite filter_fmap_pre. simpl.
  rewrite (filter_swap (λ x, Goal.id x = Goal.id g)).
  rewrite (filter_swap (λ x, Goal.id x = Goal.id g)).
  rewrite (filter_key_unique Goal.id (goals db) g Hnd Hg), Hauth.
  unfold owner, Goal_owned.
  case_decide as Ho.
  - by rewrite !filter_cons_True by done.
  - by rewrite filter_cons_False by done.
Qed.

(** ** The theme button *)

(** Once the Navbar has mounted, after any number of clicks on the theme
    button the icon state [isDark] says whether the document carries the
    class [dark]; an even number of clicks leaves that class as the page
    had it, an odd number flips it; no other class is ever touched. *)
Theorem theme_follows_document (n : nat) (cls : gset string) :
  let w := Navbar.clicks n cls in
  Navbar.isDark w = bool_decide ("dark" ∈ Navbar.classList w)
  ∧ ("dark" ∈ Navbar.classList w ↔
     if Nat.even n then "dark" ∈ cls else "dark" ∉ cls)
  ∧ ∀ c, c ≠ "dark" → c ∈ Navbar.classList w ↔ c ∈ cls.
Proof.
  induction n as [|n IH].
  - simpl. repeat split; done.
  - destruct IH as (Hicon & Hdark & Hother).
    change (Navbar.clicks (S n) cls) with (Navbar.toggleTheme (Navbar.clicks n cls)).
    rewrite Nat.even_succ, <- Nat.negb_even.
    set (w := Navbar.clicks n cls) in *. simpl.
    unfold Navbar.classList_toggle.
    destruct (decide ("dark" ∈ Navbar.classList w)) as [Hin|Hout].
    + split; [|split].
      * rewrite Hicon, (bool_decide_eq_true_2 _ Hin). simpl.
        symmetry. apply bool_decide_eq_false_2.
        rewrite elem_of_difference, elem_of_singleton. intuition congruence.
      * rewrite elem_of_difference, elem_of_singleton.
        destruct (Nat.even n), (decide ("dark" ∈ cls)); simpl in *;
          intuition congruence.
      * intros c Hc. rewrite <- (Hother c Hc).
        rewrite elem_of_difference, elem_of_singleton. intuition congruence.
    + split; [|split].
      * rewrite Hicon, (bool_decide_eq_false_2 _ Hout). simpl.
        symmetry. apply bool_decide_eq_true_2.
        rewrite elem_of_union, elem_of_singleton. intuition congruence.
      * rewrite elem_of_union, elem_of_singleton.
        destruct (Nat.even n), (decide ("dark" ∈ cls)); simpl in *;
          intuition congruence.
      * intros c Hc. rewrite <- (Hother c Hc).
        rewrite elem_of_union, elem_of_singleton. intuition congruence.
Qed.

(** ** Channels over a session of the dashboard *)

Section channel_facts.
Context {St : Type}.

Lemma start_channels (p : Prog St) (rt : Runtime St) :
  channels (start p rt) = channels rt.
Proof.
  revert rt. induction p as [|f k IH|e k IH|R req k _]; intros rt; simpl;
    [done|by rewrite IH..|done].
Qed.

Lemma settle_channels (i : nat) (answer : ∀ R, Request R → Reply R)
    (rt : Runtime St) :
  channels (settle i answer rt) = channels rt.
Proof.
  unfold settle. destruct (inflight rt !! i); [|done]. by rewrite start_channels.
Qed.

Lemma notify_channels (tbl : string) (uid : uuid) (rt : Runtime St) :
  channels (notify tbl uid rt) = channels rt.
Proof.
  unfold notify. generalize (channels rt) at 1 as chs. intros chs. revert rt.
  induction chs as [|ch chs IH]; intros rt; simpl; [done|].
  rewrite IH. case_decide; [apply start_channels|done].
Qed.

Lemma removed_names (name : string) (chs : list (Channel St)) :
  channel_name <$> filter (λ ch, channel_name ch ≠ name) chs
  = filter (λ n, n ≠ name) (channel_name <$> chs).
Proof. by rewrite filter_fmap_pre. Qed.
End channel_facts.

(** The dashboard state that the channel count depends on: the view on
    screen is the active one, it holds exactly its own channels, and
    nothing was left behind. *)
Lemma dashboard_step_channels (user : option uuid) (app : Dashboard.App)
    (ev : Dashboard.Event) :
  (Dashboard.left_behind app = []
   ∧ Dashboard.subscribed (Dashboard.screen app)
     = Dashboard.channels_of user (Dashboard.activeView app)
   ∧ match Dashboard.screen app, Dashboard.activeView app with
     | Dashboard.TodayScreen _ _, Dashboard.Today
     | Dashboard.GoalsScreen _, Dashboard.Goals
     | Dashboard.MilestonesScreen _, Dashboard.Milestones => True
     | _, _ => False
     end) →
  let app' := Dashboard.step user app ev in
  Dashboard.left_behind app' = []
  ∧ Dashboard.subscribed (Dashboard.screen app')
    = Dashboard.channels_of user (Dashboard.activeView app')
  ∧ match Dashboard.screen app', Dashboard.activeView app' with
    | Dashboard.TodayScreen _ _, Dashboard.Today
    | Dashboard.GoalsScreen _, Dashboard.Goals
    | Dashboard.MilestonesScreen _, Dashboard.Milestones => True
    | _, _ => False
    end.
Proof.
  intros (Hleft & Hsub & Hkind). destruct app as [v open scr left].
  simpl in *. subst left.
  destruct ev as [view clock|o|clock|i|tbl owner|i answer]; simpl.
  - case_decide as Hv; [by subst|]. simpl. split; [|split].
    + destruct scr as [d rt|rt|rt], v; try done; destruct user as [uid|];
        simpl in *; rewrite ?removed_names, ?Hsub; done.
    + by destruct view, user.
    + by destruct view.
  - done.
  - destruct scr as [d rt|rt|rt], v; try done. simpl. split; [done|].
    split; [|done]. unfold TodayView.rerender. case_decide; [done|].
    destruct user as [uid|]; [|done]. simpl in *.
    by rewrite !fmap_app, !removed_names, Hsub.
  - destruct scr as [d rt|rt|rt], v; try done; simpl;
      by rewrite start_channels.
  - destruct scr as [d rt|rt|rt], v; try done; simpl;
      by rewrite notify_channels.
  - destruct scr as [d rt|rt|rt], v; try done; simpl;
      by rewrite settle_channels.
Qed.

(** Whatever the user does in a session (switching views, opening the
    dialog, ticking checkboxes) and whatever arrives (notifications,
    replies, a render on a new day), the channels subscribed are exactly
    those of the view on screen: two for Today, one for Goals, one for
    Milestones, none without a signed-in user. No view leaves a channel
    behind when it goes off screen. *)
Theorem channels_do_not_accumulate (user : option uuid) (clock : date)
    (events : list Dashboard.Event) :
  let app := Dashboard.run user clock events in
  Dashboard.left_behind app = []
  ∧ Dashboard.subscribed (Dashboard.screen app)
    = Dashboard.channels_of user (Dashboard.activeView app).
Proof.
  simpl. unfold Dashboard.run.
  assert (Dashboard.left_behind (Dashboard.initial user clock) = []
          ∧ Dashboard.subscribed (Dashboard.screen (Dashboard.initial user clock))
            = Dashboard.channels_of user
                (Dashboard.activeView (Dashboard.initial user clock))
          ∧ match Dashboard.screen (Dashboard.initial user clock),
                  Dashboard.activeView (Dashboard.initial user clock) with
            | Dashboard.TodayScreen _ _, Dashboard.Today
            | Dashboard.GoalsScreen _, Dashboard.Goals
            | Dashboard.MilestonesScreen _, Dashboard.Milestones => True
            | _, _ => False
            end) as Hinit by (by destruct user).
  revert Hinit. generalize (Dashboard.initial user clock) as app.
  induction events as [|ev events IH]; intros app Hinv; simpl.
  - by destruct Hinv as (? & ? & _).
  - apply IH. by apply dashboard_step_channels.
Qed.

(** ** Reading back a toggle *)

(** Whatever order the store gives to rows with equal sort keys, the
    day's list read after an update holds the rows read before it with the
    update applied. *)
Lemma select_tasks_of_updated (env : Env) (auth uid : uuid) (d : date)
    (rid : uuid) (b : bool) (db : Store) :
  select_tasks auth uid d (set_tasks (update_completed Task_touch env rid b) db)
  ≡ₚ update_completed Task_touch env rid b (select_tasks auth uid d db).
Proof.
  unfold select_tasks, visible, update_completed. simpl.
  rewrite !order_Permutation.
  rewrite !filter_fmap_same; [done|..]; intros r; case_decide; done.
Qed.

(** Two sorted lists with the same keys and ids, no key twice, list the
    ids in the same order. *)
Lemma sorted_distinct_keys_unique (l1 l2 : list (Z * uuid)) :
  StronglySorted (λ p q, p.1 ≤ q.1) l1 → StronglySorted (λ p q, p.1 ≤ q.1) l2 →
  NoDup (fst <$> l2) → l1 ≡ₚ l2 → l1 = l2.
Proof.
  intros H1 H2 Hnd Hp.
  apply (StronglySorted_unique_strong (λ p q : Z * uuid, p.1 ≤ q.1)); [|done..].
  intros x1 x2 Hx1 Hx2 Ha Hb. rewrite Hp in Hx1.
  revert Hnd Hx1 Hx2. clear -Ha Hb. induction l2 as [|x l IH]; intros Hnd Hx1 Hx2.
  - by apply elem_of_nil in Hx1.
  - rewrite fmap_cons in Hnd. apply NoDup_cons in Hnd as [Hx Hnd].
    apply elem_of_cons in Hx1 as [->|Hx1], Hx2 as [->|Hx2]; auto.
    + exfalso. apply Hx. apply list_elem_of_fmap. exists x2. split; [lia|done].
    + exfalso. apply Hx. apply list_elem_of_fmap. exists x1. split; [lia|done].
Qed.

(** After the update that a toggle sends has been applied, the day's list
    read back from the store holds the same records; the toggled record
    carries the new flag and [updated_at = NOW()], with its title, date
    and creation time as before, and every other record is as it was.
    When no two tasks of the list were created at the same instant, the
    records also come in the same order. *)
Theorem toggled_flag_is_read_back (env : Env) (uid : uuid) (d : date)
    (t : Task.t) (b : bool) (db : Store) :
  auth_uid env = uid →
  t ∈ select_tasks uid uid d db →
  let r := serve env (UpdateTaskCompleted (Task.id t) b) db in
  error r.1 = None
  ∧ Task.id <$> select_tasks uid uid d r.2 ≡ₚ Task.id <$> select_tasks uid uid d db
  ∧ (NoDup (Task.created_at <$> select_tasks uid uid d db) →
     Task.id <$> select_tasks uid uid d r.2 = Task.id <$> select_tasks uid uid d db)
  ∧ Task.mk (Task.id t) uid (Task.title t) b (Task.task_date t) (Task.alarm_time t)
            (Task.created_at t) (NOW env)
    ∈ select_tasks uid uid d r.2
  ∧ ∀ t', t' ∈ select_tasks uid uid d r.2 → Task.id t' ≠ Task.id t →
          t' ∈ select_tasks uid uid d db.
Proof.
  intros Hauth Ht r. subst r. simpl.
  pose proof (select_tasks_of_updated env uid uid d (Task.id t) b db) as Hperm.
  set (after := select_tasks uid uid d
                  (set_tasks (update_completed Task_touch env (Task.id t) b) db))
    in *.
  set (before := select_tasks uid uid d db) in *.
  assert (Task.user_id t = uid) as Ho.
  { subst before. unfold select_tasks in Ht. apply elem_of_order in Ht.
    by apply list_elem_of_filter in Ht as [_ [? _]%list_elem_of_filter]. }
  set (pair := λ r : Task.t, (Task.created_at r, Task.id r)).
  assert (pair <$> after ≡ₚ pair <$> before) as Hpairs.
  { rewrite Hperm. unfold update_completed. rewrite <- list_fmap_compose.
    apply reflexive_eq, list_fmap_ext. intros i x _. simpl. by case_decide. }
  split; [done|]. split; [|split; [|split]].
  - assert (Task.id <$> after = snd <$> (pair <$> after)) as ->
      by (by rewrite <- list_fmap_compose).
    assert (Task.id <$> before = snd <$> (pair <$> before)) as ->
      by (by rewrite <- list_fmap_compose).
    by rewrite Hpairs.
  - intros Hnd.
    assert (pair <$> after = pair <$> before) as Heq.
    { apply sorted_distinct_keys_unique; [| | |exact Hpairs].
      - apply (StronglySorted_fmap _ (precedes Task.created_at true));
          [by intros x y|]. apply order_StronglySorted.
      - apply (StronglySorted_fmap _ (precedes Task.created_at true));
          [by intros x y|]. apply order_StronglySorted.
      - by rewrite <- list_fmap_compose. }
    assert (Task.id <$> after = snd <$> (pair <$> after)) as ->
      by (by rewrite <- list_fmap_compose).
    rewrite Heq. by rewrite <- list_fmap_compose.
  - rewrite Hperm. unfold update_completed. apply list_elem_of_fmap. exists t.
    split; [|done].
    rewrite decide_True by (by rewrite Hauth). by rewrite <- Ho.
  - intros t' Ht' Hne. rewrite Hperm in Ht'. unfold update_completed in Ht'.
    apply list_elem_of_fmap in Ht' as (x & -> & Hx).
    case_decide as Hc; [|done]. destruct Hc as [_ Hid]. exfalso. apply Hne.
    rewrite <- Hid. by destruct x.
Qed.

(** ** Where a new row shows in the list *)

Lemma last_all_equal {A} (l : list A) (t : A) :
  l ≠ [] → (∀ y, y ∈ l → y = t) → last l = Some t.
Proof.
  induction l as [|x l IH]; intros Hne Hall; [done|].
  destruct l as [|y l']; simpl.
  - f_equal. apply Hall. by left.
  - apply IH; [done|]. intros z Hz. apply Hall. by right.
Qed.

Lemma sorted_newest_last {A} `{EqDecision A} (col : A → Z) (l : list A) (t : A) :
  StronglySorted (precedes col true) l → t ∈ l →
  (∀ y, y ∈ l → y ≠ t → col y < col t) →
  last l = Some t.
Proof.
  induction 1 as [|x l Hl IH Hx]; intros Ht Hlt; [by apply elem_of_nil in Ht|].
  destruct l as [|y l']; [by apply list_elem_of_singleton in Ht as ->|].
  change (last (x :: y :: l')) with (last (y :: l')).
  destruct (decide (x = t)) as [->|Hxt].
  - apply last_all_equal; [done|]. intros z Hz.
    destruct (decide (z = t)) as [|Hzt]; [done|]. exfalso.
    assert (col z < col t) by (apply Hlt; [by right|done]).
    rewrite Forall_forall in Hx. specialize (Hx z Hz). unfold precedes in Hx. lia.
  - apply IH.
    + by apply elem_of_cons in Ht as [->|].
    + intros z Hz. apply Hlt. by right.
Qed.

Lemma sorted_newest_first {A} `{EqDecision A} (col : A → Z) (l : list A) (t : A) :
  StronglySorted (precedes col false) l → t ∈ l →
  (∀ y, y ∈ l → y ≠ t → col y < col t) →
  head l = Some t.
Proof.
  intros Hs Ht Hlt. destruct Hs as [|x l Hl Hx]; [by apply elem_of_nil in Ht|].
  simpl. f_equal. apply elem_of_cons in Ht as [->|Ht]; [done|].
  rewrite Forall_forall in Hx. specialize (Hx t Ht). unfold precedes in Hx.
  destruct (decide (x = t)) as [|Hne]; [done|]. exfalso.
  assert (col x < col t) by (apply Hlt; [by left|done]). lia.
Qed.

(** When [NOW()] is later than the creation time of every row already in
    the table, a newly created task is the last entry of its day's list,
    and a newly created goal or milestone the first entry of its list. *)
Theorem newest_row_position (env : Env) (p : gmap string jsval) (db db' : Store) :
  (insert_task env p db = Ok db' →
   (∀ r, r ∈ tasks db → Task.created_at r < NOW env) →
   ∃ t, tasks db' = tasks db ++ [t]
        ∧ last (select_tasks (auth_uid env) (auth_uid env) (Task.task_date t) db')
          = Some t)
  ∧ (insert_goal env p db = Ok db' →
     (∀ r, r ∈ goals db → Goal.created_at r < NOW env) →
     ∃ g, goals db' = goals db ++ [g]
          ∧ head (select_goals (auth_uid env) (auth_uid env) db') = Some g)
  ∧ (insert_milestone env p db = Ok db' →
     (∀ r, r ∈ milestones db → Milestone.created_at r < NOW env) →
     ∃ m, milestones db' = milestones db ++ [m]
          ∧ head (select_milestones (auth_uid env) (auth_uid env) db') = Some m).
Proof.
  split; [|split]; intros H Hold.
  - unfold insert_task in H. invert_write H.
    apply insert_checks_Ok in E as (_ & _ & _ & <- & _). injection H as <-.
    eexists. split; [reflexivity|]. simpl.
    apply (sorted_newest_last Task.created_at).
    + apply order_StronglySorted.
    + unfold select_tasks, visible. apply elem_of_order.
      rewrite !list_elem_of_filter. simpl.
      repeat split; try done. apply elem_of_app. right. by left.
    + intros y Hy Hne. unfold select_tasks, visible in Hy.
      apply elem_of_order in Hy. rewrite !list_elem_of_filter in Hy.
      destruct Hy as (_ & _ & _ & Hy). simpl in Hy.
      apply elem_of_app in Hy as [Hy| ->%list_elem_of_singleton]; [|done].
      simpl. by apply Hold.
  - unfold insert_goal in H. invert_write H.
    apply insert_checks_Ok in E as (_ & _ & _ & <- & _). injection H as <-.
    eexists. split; [reflexivity|]. simpl.
    apply (sorted_newest_first Goal.created_at).
    + apply order_StronglySorted.
    + unfold select_goals, visible. apply elem_of_order.
      rewrite !list_elem_of_filter. simpl.
      repeat split; try done. apply elem_of_app. right. by left.
    + intros y Hy Hne. unfold select_goals, visible in Hy.
      apply elem_of_order in Hy. rewrite !list_elem_of_filter in Hy.
      destruct Hy as (_ & _ & Hy). simpl in Hy.
      apply elem_of_app in Hy as [Hy| ->%list_elem_of_singleton]; [|done].
      simpl. by apply Hold.
  - unfold insert_milestone in H. invert_write H.
    apply insert_checks_Ok in E as (_ & _ & _ & <- & _). injection H as <-.
    eexists. split; [reflexivity|]. simpl.
    apply (sorted_newest_first Milestone.created_at).
    + apply order_StronglySorted.
    + unfold select_milestones, visible. apply elem_of_order.
      rewrite !list_elem_of_filter. simpl.
      repeat split; try done. apply elem_of_app. right. by left.
    + intros y Hy Hne. unfold select_milestones, visible in Hy.
      apply elem_of_order in Hy. rewrite !list_elem_of_filter in Hy.
      destruct Hy as (_ & _ & Hy). simpl in Hy.
      apply elem_of_app in Hy as [Hy| ->%list_elem_of_singleton]; [|done].
      simpl. by apply Hold.
Qed.

(** ** A render on a new day *)

(** When TodayView renders on a new day, its effect is torn down and run
    again: the list on screen stays as it is until a read resolves, the
    two reads for the new day are issued behind those already in flight,
    and the channels now re-read for the new day. A render on the same
    day, for the same user, does nothing. *)
Theorem day_change_resubscribes (uid : uuid) (d d' : date)
    (rt : Runtime TodayView.State) :
  d ≠ d' →
  channels rt = channels (mount TodayView.initial (TodayView.effect (Some uid) d)) →
  let rt' := TodayView.rerender (Some uid) d (Some uid) d' rt in
  state rt' = state rt
  ∧ inflight rt'
    = inflight rt ++ option_list (suspended (TodayView.fetchTasks uid d'))
        ++ option_list (suspended (TodayView.fetchTimeBlocks uid d'))
  ∧ channels rt'
    = channels (mount TodayView.initial (TodayView.effect (Some uid) d'))
  ∧ notify "tasks" uid rt' = start (TodayView.fetchTasks uid d') rt'
  ∧ TodayView.rerender (Some uid) d (Some uid) d rt = rt.
Proof.
  intros Hne Hch rt'. subst rt'. unfold TodayView.rerender.
  rewrite decide_False by (by intros [_ ?]).
  rewrite decide_True by done.
  assert (channels (TodayView.effect (Some uid) d' (TodayView.cleanup (Some uid) rt))
          = channels (mount TodayView.initial (TodayView.effect (Some uid) d')))
    as Hch'.
  { simpl. rewrite Hch. reflexivity. }
  split; [done|]. split; [simpl; by rewrite <- app_assoc|].
  split; [exact Hch'|]. split; [|done].
  by apply notify_tasks.
Qed.

(** ** Deleting a goal *)

(** Deleting a goal touches goals and milestones only, and only through
    a goal the caller owns: the goals of every other identity stay, and
    when the caller owns no goal with that id the store is unchanged. *)
Theorem delete_goal_scope (env : Env) (gid : uuid) (db : Store) :
  let db' := delete_goal env gid db in
  (users db' = users db ∧ profiles db' = profiles db ∧ tasks db' = tasks db
   ∧ time_blocks db' = time_blocks db)
  ∧ (∀ Y, Y ≠ auth_uid env → visible Y (goals db') = visible Y (goals db))
  ∧ (∀ g, g ∈ goals db → Goal.id g ≠ gid → g ∈ goals db')
  ∧ ((∀ g, g ∈ goals db → Goal.id g = gid → Goal.user_id g ≠ auth_uid env) →
     db' = db).
Proof.
  simpl. split; [done|]. split; [|split].
  - intros Y HY. unfold visible. rewrite list_filter_filter.
    apply list_filter_iff. intros g. unfold owner, Goal_owned.
    split; [by intros [? _]|]. intros Ho. split; [done|]. intros [Ha _]. congruence.
  - intros g Hg Hne. apply list_elem_of_filter. split; [|done]. by intros [_ ?].
  - intros Hno. apply delete_goal_no_match. intros g Hg [Ho Hid].
    by apply (Hno g Hg Hid).
Qed.

(** ** The further theorems at the sample data *)

Lemma sample_store_integrity : integrity sample_store.
Proof.
  split; try compute_done.
  - apply (Forall_forall (λ p, user_exists (Profile.id p) sample_store)).
    compute_done.
  - apply (Forall_forall (λ r, user_exists (Task.user_id r) sample_store)).
    compute_done.
  - apply (Forall_forall (λ r, user_exists (TimeBlock.user_id r) sample_store)).
    compute_done.
  - apply (Forall_forall (λ r, user_exists (Goal.user_id r) sample_store)).
    compute_done.
  - apply (Forall_forall (λ r, user_exists (Milestone.user_id r) sample_store)).
    compute_done.
  - apply (Forall_forall
             (λ r, goal_reference_ok (Milestone.goal_id r) sample_store)).
    compute_done.
Qed.

Lemma foreign_insert_refused_witness :
  (serve alice_env
         (InsertTask (AddItemModal.task_payload bob "2025-01-01" task_form))
         sample_store).2 = sample_store.
Proof.
  apply (foreign_insert_refused alice_env
           (AddItemModal.task_payload bob "2025-01-01" task_form) sample_store).
  discriminate.
Defined.

Lemma writes_stay_with_their_owner_witness :
  bob ≠ auth_uid alice_env
  ∧ own bob (serve alice_env (UpdateTaskCompleted "t3" true) sample_store).2
    = own bob sample_store.
Proof.
  split; [discriminate|].
  apply (writes_stay_with_their_owner alice_env bob
           (UpdateTaskCompleted "t3" true) sample_store).
  discriminate.
Defined.

Lemma integrity_kept_witness :
  integrity
    (serve alice_env
           (InsertTask (AddItemModal.task_payload alice "2025-01-01" task_form))
           sample_store).2
  ∧ integrity (delete_user bob sample_store).
Proof.
  destruct (integrity_kept alice_env sample_store sample_store_integrity)
    as (Hserve & _ & Hdel & _).
  split; [apply Hserve|apply Hdel].
Defined.

Lemma milestone_may_reference_any_goal_witness :
  ∃ db' m,
    insert_milestone bob_env
      (<["goal_id" := JStr "g1"]> (AddItemModal.milestone_payload bob milestone_form))
      sample_store = Ok db'
    ∧ Milestone.user_id m = bob
    ∧ Milestone.goal_id m = Some "g1"
    ∧ m ∈ milestones db'
    ∧ m ∉ milestones (delete_goal alice_env "g1" db').
Proof.
  destruct (milestone_may_reference_any_goal bob_env alice_env bob milestone_form
              "Complete course module 2" spanish sample_store)
    as (db' & m & Hok & Hrows & Ho & Hg & Hgone);
    [reflexivity|compute_done|compute_done|reflexivity| |compute_done|reflexivity|].
  { intros s Hs. vm_compute in Hs. injection Hs as <-. right. by eexists. }
  exists db', m. split; [exact Hok|]. split; [exact Ho|]. split; [exact Hg|].
  split; [|exact Hgone]. rewrite Hrows. apply elem_of_app. right. by left.
Defined.

Lemma last_resolved_load_wins_witness :
  let rt := TodayView.rerender (Some alice) "2025-01-01" (Some alice) "2025-01-02"
              (mount TodayView.initial (TodayView.effect (Some alice) "2025-01-01")) in
  let a := answers_of alice_env sample_store in
  TodayView.tasks (state (settle (2 - 1) a (settle 0 a rt))) = []
  ∧ TodayView.tasks (state (settle 0 a (settle 2 a rt))) = [report; review].
Proof.
  apply (last_resolved_load_wins
           (TodayView.rerender (Some alice) "2025-01-01" (Some alice) "2025-01-02"
              (mount TodayView.initial (TodayView.effect (Some alice) "2025-01-01")))
           0 2 alice "2025-01-01" "2025-01-02"
           (answers_of alice_env sample_store) (answers_of alice_env sample_store));
    [lia|reflexivity..].
Defined.

Lemma added_task_shows_after_refetch_witness :
  let rt := mount TodayView.initial (TodayView.effect (Some alice) "2025-01-01") in
  let r := exec (@serve alice_env)
             (AddItemModal.handler (AddItemModal.render (Some alice) "2025-01-01")
                AddItemModal.TaskForm task_form) AddItemModal.initial sample_store in
  let rt' := settle (length (inflight rt)) (answers_of alice_env r.1.2)
               (notify "tasks" alice rt) in
  ∃ t, t ∈ TodayView.tasks (state rt')
       ∧ Task.id t = "t9" ∧ Task.title t = "Call the bank"
       ∧ Task.completed t = false ∧ Task.task_date t = "2025-01-01".
Proof.
  apply (added_task_shows_after_refetch alice_env alice_env alice "2025-01-01"
           task_form "Call the bank" sample_store AddItemModal.initial
           (mount TodayView.initial (TodayView.effect (Some alice) "2025-01-01")));
    [reflexivity|reflexivity|compute_done|compute_done|reflexivity|
     |reflexivity|reflexivity].
  intros s Hs. vm_compute in Hs. injection Hs as <-. by left.
Defined.

Lemma goal_badge_shows_own_goals_witness :
  getGoalTitle
    (exec (@serve alice_env) (MilestonesView.fetchData alice)
          MilestonesView.initial sample_store).1.1 (Some "g1")
  = Some "Learn Spanish".
Proof.
  apply (goal_badge_shows_own_goals alice_env alice sample_store
           MilestonesView.initial spanish);
    [reflexivity|compute_done|compute_done|discriminate].
Defined.

Lemma toggled_flag_is_read_back_witness :
  Task.id <$> select_tasks alice alice "2025-01-01"
                (serve alice_env (UpdateTaskCompleted "t1" true) sample_store).2
  = ["t1"; "t2"].
Proof.
  destruct (toggled_flag_is_read_back alice_env alice "2025-01-01" report true
              sample_store) as (_ & _ & Hsame & _); [reflexivity|compute_done|].
  etrans; [apply Hsame; compute_done|reflexivity].
Defined.

Lemma notifications_are_routed_witness :
  let rt := mount TodayView.initial (TodayView.effect (Some alice) "2025-01-01") in
  notify "tasks" alice rt = start (TodayView.fetchTasks alice "2025-01-01") rt
  ∧ notify "tasks" bob rt = rt.
Proof.
  destruct (proj1 (notifications_are_routed alice "2025-01-01")
              (mount TodayView.initial (TodayView.effect (Some alice) "2025-01-01"))
              eq_refl) as (Htasks & _ & Hother).
  split; [exact Htasks|]. apply Hother. right. discriminate.
Defined.

Lemma newest_row_position_witness :
  ∃ db' g,
    insert_goal alice_env (AddItemModal.goal_payload alice
                             {[ "goal-title" := "Read more"; "goal-type" := "yearly" ]})
                sample_store = Ok db'
    ∧ goals db' = goals sample_store ++ [g]
    ∧ head (select_goals alice alice db') = Some g.
Proof.
  assert (∃ db', insert_goal alice_env
                   (AddItemModal.goal_payload alice
                      {[ "goal-title" := "Read more"; "goal-type" := "yearly" ]})
                   sample_store = Ok db') as [db' E]
    by (eexists; vm_compute; reflexivity).
  exists db'.
  destruct (proj1 (proj2 (newest_row_position alice_env _ sample_store db')) E)
    as (g & Hg & Hhead).
  - apply (Forall_forall (λ r, Goal.created_at r < 100) (goals sample_store)).
    compute_done.
  - exists g. split; [exact E|]. split; [exact Hg|exact Hhead].
Defined.

Lemma day_change_resubscribes_witness :
  let rt := mount TodayView.initial (TodayView.effect (Some alice) "2025-01-01") in
  let rt' := TodayView.rerender (Some alice) "2025-01-01" (Some alice) "2025-01-02"
               rt in
  notify "tasks" alice rt' = start (TodayView.fetchTasks alice "2025-01-02") rt'.
Proof.
  apply (day_change_resubscribes alice "2025-01-01" "2025-01-02"
           (mount TodayView.initial (TodayView.effect (Some alice) "2025-01-01")));
    [discriminate|reflexivity].
Defined.
